(** * Google Calendar sync plugin: token refresh and event aggregation

    A shallow embedding of [GoogleCalendarPlugin.ensureValidAccessToken] and
    [GoogleCalendarPlugin.fetchAndInsertEvents] (src/main.ts, the
    multi-calendar version of the plugin), together with the properties of
    the token lifecycle, of the per-calendar fetch loop, of the merge
    comparator and of the rendering of one event line.

    Conventions of the embedding:
    - epoch milliseconds and calendar indices are integers; the JavaScript
      numbers involved are integers far below 2^53, and the only use made of
      a difference of two of them is its sign;
    - a JSON field that may be missing is an [option]; JavaScript truthiness
      of such a field ([x ? .. : ..], [x || d], [!x]) is [truthy];
    - [this.settings], the requests sent, the calls of [saveSettings], the
      [Notice]s shown and the texts handed to the editor form the [World]
      that the two methods thread; what the network, the clock, the date
      parser and the workspace answer is the [Host]. *)

From Stdlib Require Import ZArith List String Bool Lia Permutation Sorted.
From Stdlib Require Import DecimalString.
Import ListNotations.

Local Open Scope Z_scope.
Local Open Scope string_scope.

(** ** JavaScript values *)

Module Js.

(** A JavaScript number as the comparator produces it: an integer or NaN. *)
Inductive Number : Type :=
| Fin (z : Z)
| NaN.

(** A [Date] object: a time value in epoch milliseconds or Invalid Date. *)
Inductive Date : Type :=
| ValidDate (t : Z)
| InvalidDate.

(** [d.getTime()] *)
Definition getTime (d : Date) : Number :=
  match d with
  | ValidDate t => Fin t
  | InvalidDate => NaN
  end.

(** [x !== y] on numbers: NaN differs from everything, itself included. *)
Definition strictNe (x y : Number) : bool :=
  match x, y with
  | Fin a, Fin b => negb (a =? b)%Z
  | _, _ => true
  end.

(** [x - y] on numbers. *)
Definition sub (x y : Number) : Number :=
  match x, y with
  | Fin a, Fin b => Fin (a - b)
  | _, _ => NaN
  end.

(** Truthiness of a string: only the empty string is falsy. *)
Definition nonEmpty (s : string) : bool := negb (s =? "").

(** Truthiness of a string field that may be [undefined]. *)
Definition truthy (f : option string) : bool :=
  match f with
  | Some s => nonEmpty s
  | None => false
  end.

(** [a || b] where both sides are optional strings. *)
Definition or (a b : option string) : option string :=
  if truthy a then a else b.

(** [a || d] where the right-hand side is a string literal. *)
Definition orElse (a : option string) (d : string) : string :=
  match a with
  | Some s => if nonEmpty s then s else d
  | None => d
  end.

(** [n || d] on a numeric field that may be [undefined]: 0 is falsy. *)
Definition orNum (n : option Z) (d : Z) : Z :=
  match n with
  | Some v => if (v =? 0)%Z then d else v
  | None => d
  end.

(** The text of the TypeError thrown by reading property [prop] of [null]. *)
Definition nullRead (prop : string) : string :=
  "TypeError: Cannot read properties of null (reading '" ++ prop ++ "')".

(** The text of the RangeError thrown by [toISOString()] on an Invalid Date. *)
Definition invalidTime : string := "RangeError: Invalid time value".

End Js.

(** ** Data model *)

(** [interface Calendar] *)
Record Calendar : Type := mkCalendar {
  id : string;
  label : string
}.

(** [interface GoogleCalendarSettings] *)
Record GoogleCalendarSettings : Type := mkSettings {
  clientId : string;
  clientSecret : string;
  refreshToken : string;
  accessToken : string;
  accessTokenExpiry : Z;
  calendars : list Calendar
}.

(** An element of [data.items]: the fields of a calendar event that the
    plugin reads.  [start_dateTime] is [event.start?.dateTime] and
    [start_date] is [event.start?.date]. *)
Record RawEvent : Type := mkRawEvent {
  summary : option string;
  description : option string;
  start_dateTime : option string;
  start_date : option string
}.

(** The value obtained by [JSON.parse(response.text)] when it is not
    [null], seen through the fields that the two methods read.  An element
    of the [items] array is [None] when it is [null]. *)
Record ResponseData : Type := mkResponseData {
  access_token : option string;
  expires_in : option Z;
  items : option (list (option RawEvent))
}.

(** What [requestUrl] followed by [JSON.parse] yields inside a [try]:
    something was thrown (transport error, error status, body that does
    not parse), or the body was the JSON text [null], or the parsed data. *)
Inductive Reply : Type :=
| Threw (err : string)
| ParsedNull
| Parsed (data : ResponseData).

(** How the promise of an async method settles. *)
Inductive Settled : Type :=
| Fulfilled
| Rejected (err : string).

(** The two requests the plugin sends. *)
Inductive Request : Type :=
| TokenRequest (client_id client_secret refresh_token : string)
| EventsRequest (calendarId timeMin timeMax bearer : string).

(** The messages shown with [new Notice(..)]. *)
Inductive Notice : Type :=
| NoRefreshToken                          (* No refresh token. Go to settings ... *)
| RefreshFailed                           (* Failed to refresh token. Check your OAuth credentials. *)
| RefreshError (err : string)             (* Token refresh error: err *)
| NoCalendars                             (* No calendars configured. ... *)
| CalendarError (calendarLabel err : string) (* Error fetching events from "label": err *)
| NoEvents (dateStr : string)             (* No events on dateStr *)
| Inserted (events sources : nat)         (* Inserted n event(s) from m calendar(s) *)
| NoActiveNote.                           (* No active note open *)

(** An element of [allEvents]. *)
Record Item : Type := mkItem {
  event : RawEvent;
  calendarLabel : string;
  calendarIndex : nat;
  isAllDay : bool;
  startTime : option Js.Date
}.

(** The collaborators of the plugin: the clock, the network, the date
    parser and the date formatter of the engine, and the workspace.  The
    reply to a request may depend on how many requests were sent before
    it.  [toISODate t] is [toISOString().split('T')[0]] of the date with
    time value [t]. *)
Record Host : Type := mkHost {
  now : Z;
  requestUrl : nat -> Request -> Reply;
  parseDate : string -> Js.Date;
  toISODate : Z -> string;
  activeView : bool
}.

(** The state threaded by the plugin's methods. *)
Record World : Type := mkWorld {
  settings : GoogleCalendarSettings;
  requests : list Request;
  saved : list GoogleCalendarSettings;
  notices : list Notice;
  editor : list string
}.

(** ** A state monad over the world *)

Definition M (A : Type) : Type := World -> A * World.

Definition ret {A : Type} (a : A) : M A := fun w => (a, w).

Definition bind {A B : Type} (m : M A) (k : A -> M B) : M B :=
  fun w => let (a, w') := m w in k a w'.

Declare Scope plugin_scope.
Delimit Scope plugin_scope with plugin.
Notation "x <- m ;; k" := (bind m (fun x => k))
  (at level 61, m at next level, right associativity) : plugin_scope.
Notation "m ;; k" := (bind m (fun _ => k))
  (at level 61, right associativity) : plugin_scope.
Local Open Scope plugin_scope.

Definition getSettings : M GoogleCalendarSettings :=
  fun w => (settings w, w).

Definition putSettings (s : GoogleCalendarSettings) : M unit :=
  fun w => (tt, mkWorld s (requests w) (saved w) (notices w) (editor w)).

(** [this.settings.accessToken = tok] *)
Definition setAccessToken (tok : string) : M unit :=
  s <- getSettings ;;
  putSettings (mkSettings (clientId s) (clientSecret s) (refreshToken s)
                 tok (accessTokenExpiry s) (calendars s)).

(** [this.settings.accessTokenExpiry = t] *)
Definition setAccessTokenExpiry (t : Z) : M unit :=
  s <- getSettings ;;
  putSettings (mkSettings (clientId s) (clientSecret s) (refreshToken s)
                 (accessToken s) t (calendars s)).

(** [saveSettings()]: [saveData(this.settings)], taken to resolve; [saved]
    is the log of these calls. *)
Definition saveSettings : M unit :=
  fun w => (tt, mkWorld (settings w) (requests w) (saved w ++ [settings w])
                  (notices w) (editor w)).

(** [new Notice(n)] *)
Definition notice (n : Notice) : M unit :=
  fun w => (tt, mkWorld (settings w) (requests w) (saved w)
                  (notices w ++ [n]) (editor w)).

(** [activeView.editor.replaceSelection(text)] *)
Definition replaceSelection (text : string) : M unit :=
  fun w => (tt, mkWorld (settings w) (requests w) (saved w) (notices w)
                  (editor w ++ [text])).

(** ** The sort of [Array.prototype.sort] *)

Section ArraySort.

Context {A : Type}.
Variable comparefn : A -> A -> Js.Number.

(** The comparison the engine makes: a NaN from [comparefn] counts as 0. *)
Definition SortCompare (x y : A) : Z :=
  match comparefn x y with
  | Js.Fin v => v
  | Js.NaN => 0
  end.

(** [Array.prototype.sort] is a stable sort: for a consistent comparator
    its result is the sorted permutation that keeps tied elements in input
    order.  It is modelled as the stable insertion sort, which moves an
    element only past the elements that compare strictly smaller.  (With an
    Invalid Date among timed events the comparator is not consistent and
    the language leaves the order to the engine; the statements about
    sorted output below take events whose timed members have an instant.) *)
Fixpoint sort_insert (x : A) (l : list A) : list A :=
  match l with
  | [] => [x]
  | y :: t => if (SortCompare x y <=? 0)%Z then x :: y :: t
              else y :: sort_insert x t
  end.

Fixpoint array_sort (l : list A) : list A :=
  match l with
  | [] => []
  | x :: t => sort_insert x (array_sort t)
  end.

End ArraySort.

(** ** The plugin *)

Section Plugin.

Variable host : Host.

(** [requestUrl(..)] and [JSON.parse(response.text)] *)
Definition request (r : Request) : M Reply :=
  fun w => (requestUrl host (List.length (requests w)) r,
            mkWorld (settings w) (requests w ++ [r]) (saved w)
              (notices w) (editor w)).

(** [async ensureValidAccessToken(): Promise<boolean>] *)
Definition ensureValidAccessToken : M bool :=
  s <- getSettings ;;
  if negb (Js.nonEmpty (refreshToken s)) then
    notice NoRefreshToken ;;
    ret false
  else
    let now := now host in
    if Js.nonEmpty (accessToken s) && (now + 60000 <? accessTokenExpiry s)%Z then
      ret true
    else
      r <- request (TokenRequest (clientId s) (clientSecret s) (refreshToken s)) ;;
      match r with
      | Parsed data =>
          match access_token data with
          | Some tok =>
              if Js.nonEmpty tok then
                setAccessToken tok ;;
                setAccessTokenExpiry (now + Js.orNum (expires_in data) 3600 * 1000) ;;
                saveSettings ;;
                ret true
              else
                notice RefreshFailed ;;
                ret false
          | None =>
              notice RefreshFailed ;;
              ret false
          end
      | ParsedNull =>
          notice (RefreshError (Js.nullRead "access_token")) ;;
          ret false
      | Threw err =>
          notice (RefreshError err) ;;
          ret false
      end.

(** The body of [for (const event of events)]: one element of
    [allEvents] for one event of one calendar. *)
Definition normalize (calendar : Calendar) (calendarIndex : nat)
    (event : RawEvent) : Item :=
  let isAllDay := negb (Js.truthy (start_dateTime event)) in
  let startTimeStr := Js.or (start_dateTime event) (start_date event) in
  let startTime :=
    match startTimeStr with
    | Some s => if Js.nonEmpty s then Some (parseDate host s) else None
    | None => None
    end in
  mkItem event (label calendar) calendarIndex isAllDay startTime.

(** [data.items || []] *)
Definition itemsOf (data : ResponseData) : list (option RawEvent) :=
  match items data with
  | Some l => l
  | None => []
  end.

(** [for (const event of events) { .. allEvents.push(..) }]: the array
    after the pushes, and the error thrown by [event.start] when an element
    is [null], which ends the loop. *)
Fixpoint pushEvents (calendar : Calendar) (calendarIndex : nat)
    (events : list (option RawEvent)) (allEvents : list Item)
    : list Item * option string :=
  match events with
  | [] => (allEvents, None)
  | Some event :: rest =>
      pushEvents calendar calendarIndex rest
        (allEvents ++ [normalize calendar calendarIndex event])
  | None :: _ => (allEvents, Some (Js.nullRead "start"))
  end.

(** The loop [for (let calendarIndex = ..; calendarIndex < ..length; ..)]
    with its [try]/[catch] per calendar, from [calendarIndex] on. *)
Fixpoint fetchCalendars (timeMin timeMax : string) (calendarIndex : nat)
    (cals : list Calendar) (allEvents : list Item) : M (list Item) :=
  match cals with
  | [] => ret allEvents
  | calendar :: rest =>
      s <- getSettings ;;
      r <- request (EventsRequest (id calendar) timeMin timeMax (accessToken s)) ;;
      match r with
      | Parsed data =>
          let (pushed, thrown) :=
            pushEvents calendar calendarIndex (itemsOf data) allEvents in
          match thrown with
          | None => fetchCalendars timeMin timeMax (S calendarIndex) rest pushed
          | Some err =>
              notice (CalendarError (label calendar) err) ;;
              fetchCalendars timeMin timeMax (S calendarIndex) rest pushed
          end
      | ParsedNull =>
          notice (CalendarError (label calendar) (Js.nullRead "items")) ;;
          fetchCalendars timeMin timeMax (S calendarIndex) rest allEvents
      | Threw err =>
          notice (CalendarError (label calendar) err) ;;
          fetchCalendars timeMin timeMax (S calendarIndex) rest allEvents
      end
  end.

End Plugin.

(** The comparator passed to [allEvents.sort]. *)
Definition compareEvents (a b : Item) : Js.Number :=
  if negb (Bool.eqb (isAllDay a) (isAllDay b)) then
    if isAllDay a then Js.Fin (-1) else Js.Fin 1
  else
    let byCalendar := Js.Fin (Z.of_nat (calendarIndex a) - Z.of_nat (calendarIndex b)) in
    if negb (isAllDay a) && negb (isAllDay b) then
      match startTime a, startTime b with
      | Some ta, Some tb =>
          if Js.strictNe (Js.getTime ta) (Js.getTime tb) then
            Js.sub (Js.getTime ta) (Js.getTime tb)
          else byCalendar
      | _, _ => byCalendar
      end
    else byCalendar.

(** [allEvents.sort((a, b) => ..)] *)
Definition sortEvents (allEvents : list Item) : list Item :=
  array_sort compareEvents allEvents.

(** The locals of the rendering loop. *)
Definition line_startTime (item : Item) : string :=
  Js.orElse (Js.or (start_dateTime (event item)) (start_date (event item))) "All day".

Definition line_title (item : Item) : string :=
  Js.orElse (summary (event item)) "(No title)".

Definition nl : string := String (Ascii.ascii_of_nat 10) "".

Definition line_description (item : Item) : string :=
  match description (event item) with
  | Some d => if Js.nonEmpty d then nl ++ "  " ++ d else ""
  | None => ""
  end.

Definition line_calendar (item : Item) : string :=
  if Js.nonEmpty (calendarLabel item) then " [" ++ calendarLabel item ++ "]" else "".

(** One iteration of [for (const item of allEvents)]: the text appended. *)
Definition renderLine (item : Item) : string :=
  "- **" ++ line_title item ++ "**" ++ line_calendar item
    ++ " (" ++ line_startTime item ++ ")" ++ line_description item ++ nl.

(** [eventText] after the rendering loop. *)
Definition renderEvents (dateStr : string) (allEvents : list Item) : string :=
  fold_left (fun text item => text ++ renderLine item) allEvents
    ("## Calendar Events for " ++ dateStr ++ nl ++ nl).

Section Command.

Variable host : Host.

(** The part of [fetchAndInsertEvents] after the fetch loop. *)
Definition insertEvents (dateStr : string) (sources : nat)
    (allEvents : list Item) : M unit :=
  if (List.length allEvents =? 0)%nat then
    notice (NoEvents dateStr)
  else
    let sorted := sortEvents allEvents in
    let eventText := renderEvents dateStr sorted in
    if activeView host then
      replaceSelection eventText ;;
      notice (Inserted (List.length sorted) sources)
    else
      notice NoActiveNote.

(** [async fetchAndInsertEvents(date: Date): Promise<void>].  The call
    [date.toISOString()] comes after the two guards and before the [try]:
    on an Invalid Date it throws and the promise is rejected. *)
Definition fetchAndInsertEvents (date : Js.Date) : M Settled :=
  ok <- ensureValidAccessToken host ;;
  if negb ok then ret Fulfilled
  else
    s <- getSettings ;;
    if (List.length (calendars s) =? 0)%nat then
      notice NoCalendars ;;
      ret Fulfilled
    else
      match date with
      | Js.InvalidDate => ret (Rejected Js.invalidTime)
      | Js.ValidDate t =>
          let dateStr := toISODate host t in
          let timeMin := dateStr ++ "T00:00:00Z" in
          let timeMax := dateStr ++ "T23:59:59Z" in
          allEvents <- fetchCalendars host timeMin timeMax 0 (calendars s) [] ;;
          insertEvents dateStr (List.length (calendars s)) allEvents ;;
          ret Fulfilled
      end.

End Command.

(** ** Concrete hosts and worlds used in the examples *)

Module Examples.

(** 2024-03-15T00:00:00Z in epoch milliseconds. *)
Definition midnight : Z := 1710460800000.

(** A date parser that knows the instants used below. *)
Definition parse (s : string) : Js.Date :=
  if s =? "2024-03-15T09:00:00Z" then Js.ValidDate (midnight + 32400000)
  else if s =? "2024-03-15T10:30:00Z" then Js.ValidDate (midnight + 37800000)
  else if s =? "2024-03-14" then Js.ValidDate (midnight - 86400000)
  else if s =? "2024-03-15" then Js.ValidDate midnight
  else Js.InvalidDate.

(** A date formatter that knows the day used below. *)
Definition isoDate (t : Z) : string :=
  if (midnight <=? t)%Z && (t <? midnight + 86400000)%Z then "2024-03-15"
  else "1970-01-01".

Definition work : Calendar := mkCalendar "work@example.com" "Work".
Definition personal : Calendar := mkCalendar "primary" "Personal".
Definition holidays : Calendar := mkCalendar "holidays@example.com" "".

Definition credential (refresh access : string) (expiry : Z) : GoogleCalendarSettings :=
  mkSettings "client" "secret" refresh access expiry [work; personal; holidays].

Definition world (s : GoogleCalendarSettings) : World := mkWorld s [] [] [] [].

Definition standup : RawEvent :=
  mkRawEvent (Some "Standup") None (Some "2024-03-15T09:00:00Z") None.
Definition review : RawEvent :=
  mkRawEvent (Some "Review") (Some "Bring notes") (Some "2024-03-15T09:00:00Z") None.
Definition lunch : RawEvent :=
  mkRawEvent (Some "Lunch") None (Some "2024-03-15T10:30:00Z") None.
Definition birthday : RawEvent :=
  mkRawEvent (Some "Birthday") None None (Some "2024-03-15").
Definition conference : RawEvent :=
  mkRawEvent (Some "Conference") None None (Some "2024-03-14").
Definition undated : RawEvent :=
  mkRawEvent None None None None.

(** The token endpoint answers [token]; the events endpoint answers per
    calendar, and the second calendar's request fails. *)
Definition answer (token : Reply) (n : nat) (r : Request) : Reply :=
  match r with
  | TokenRequest _ _ _ => token
  | EventsRequest cal _ _ _ =>
      if cal =? "work@example.com" then
        Parsed (mkResponseData None None (Some [Some standup; Some lunch]))
      else if cal =? "primary" then Threw "Error: net::ERR_FAILED"
      else Parsed (mkResponseData None None (Some [Some birthday]))
  end.

Definition host (token : Reply) : Host :=
  mkHost midnight (answer token) parse isoDate true.

Definition offline : Reply := Threw "Error: net::ERR_INTERNET_DISCONNECTED".

Definition granted (expires : option Z) : Reply :=
  Parsed (mkResponseData (Some "ya29.new") expires None).

Definition denied : Reply :=
  Parsed (mkResponseData None None None).

End Examples.

(** ** Vocabulary of the statements *)

Section Vocabulary.

Variable host : Host.

(** The refresh request built from the stored credential. *)
Definition refreshRequest (s : GoogleCalendarSettings) : Request :=
  TokenRequest (clientId s) (clientSecret s) (refreshToken s).

(** The stored access token cannot be used as it is. *)
Definition stale (s : GoogleCalendarSettings) : Prop :=
  accessToken s = "" \/ accessTokenExpiry s <= now host + 60000.

(** The credential after a refresh that returned [tok] and [expires]. *)
Definition refreshed (s : GoogleCalendarSettings) (tok : string)
    (expires : option Z) : GoogleCalendarSettings :=
  mkSettings (clientId s) (clientSecret s) (refreshToken s) tok
    (now host + Js.orNum expires 3600 * 1000) (calendars s).

(** The request for the events of one calendar. *)
Definition eventsRequest (timeMin timeMax bearer : string) (c : Calendar) : Request :=
  EventsRequest (id c) timeMin timeMax bearer.

(** What the network answers to the loop: for each calendar in turn its
    index, the calendar and the reply to its request, the first request
    being the one numbered [sent]. *)
Fixpoint exchanges (timeMin timeMax bearer : string) (sent calendarIndex : nat)
    (cals : list Calendar) : list (nat * Calendar * Reply) :=
  match cals with
  | [] => []
  | c :: rest =>
      (calendarIndex, c, requestUrl host sent (eventsRequest timeMin timeMax bearer c))
        :: exchanges timeMin timeMax bearer (S sent) (S calendarIndex) rest
  end.

(** The elements of an array before its first [null]. *)
Fixpoint beforeNull {A : Type} (l : list (option A)) : list A :=
  match l with
  | Some x :: t => x :: beforeNull t
  | _ => []
  end.

(** The array holds a [null]. *)
Fixpoint hasNull {A : Type} (l : list (option A)) : bool :=
  match l with
  | [] => false
  | Some _ :: t => hasNull t
  | None :: _ => true
  end.

(** The events one exchange contributes. *)
Definition contribution (x : nat * Calendar * Reply) : list Item :=
  match x with
  | (i, c, Parsed data) => map (normalize host c i) (beforeNull (itemsOf data))
  | (_, _, ParsedNull) => []
  | (_, _, Threw _) => []
  end.

(** The diagnostic one exchange leaves. *)
Definition diagnostic (x : nat * Calendar * Reply) : list Notice :=
  match x with
  | (_, c, Parsed data) =>
      if hasNull (itemsOf data) then [CalendarError (label c) (Js.nullRead "start")]
      else []
  | (_, c, ParsedNull) => [CalendarError (label c) (Js.nullRead "items")]
  | (_, c, Threw err) => [CalendarError (label c) err]
  end.

End Vocabulary.

(** The start instant of an event when its date is a valid one. *)
Definition instant (e : Item) : option Z :=
  match startTime e with
  | Some (Js.ValidDate t) => Some t
  | _ => None
  end.

(** An event as the normalization of upstream data yields it: a timed event
    has a start instant. *)
Definition wellFormed (e : Item) : Prop :=
  isAllDay e = false -> instant e <> None.

(** What the comparator looks at: the classification, the start instant of
    a timed event, the index of the calendar. *)
Definition Key : Type := bool * option Z * nat.

Definition sortKey (e : Item) : Key :=
  (isAllDay e, if isAllDay e then None else instant e, calendarIndex e).

Definition keyEqb (k1 k2 : Key) : bool :=
  match k1, k2 with
  | (a1, t1, i1), (a2, t2, i2) =>
      Bool.eqb a1 a2
      && match t1, t2 with
         | Some x, Some y => (x =? y)%Z
         | None, None => true
         | _, _ => false
         end
      && (i1 =? i2)%nat
  end.

(** The events with sort key [k]. *)
Definition hasKey (k : Key) (e : Item) : bool := keyEqb k (sortKey e).

(** The order on sort keys: all-day first, then by instant, then by index. *)
Definition keyLe (k1 k2 : Key) : Prop :=
  match k1, k2 with
  | (a1, t1, i1), (a2, t2, i2) =>
      match a1, a2 with
      | true, false => True
      | false, true => False
      | true, true => (i1 <= i2)%nat
      | false, false =>
          match t1, t2 with
          | Some x, Some y => x < y \/ (x = y /\ (i1 <= i2)%nat)
          | _, _ => (i1 <= i2)%nat
          end
      end
  end.

(** The sort keys of well-formed events. *)
Definition keyOk (k : Key) : Prop :=
  match k with
  | (true, t, _) => t = None
  | (false, t, _) => t <> None
  end.

(** What the output order promises of an event [x] and a later event [y]. *)
Definition ordered (x y : Item) : Prop :=
  (isAllDay y = true -> isAllDay x = true)
  /\ (forall tx ty,
        isAllDay x = false -> isAllDay y = false ->
        startTime x = Some (Js.ValidDate tx) -> startTime y = Some (Js.ValidDate ty) ->
        tx <= ty)
  /\ (isAllDay x = isAllDay y -> startTime x = startTime y ->
      (calendarIndex x <= calendarIndex y)%nat).

(** Only the classification: no timed event before an all-day event. *)
Definition allDayFirst (x y : Item) : Prop :=
  isAllDay y = true -> isAllDay x = true.

(** ** A worked day *)

Module Scenario.

Import Examples.

Definition h : Host := host offline.

(** A credential that needs no refresh, one without refresh token, and one
    whose access token has expired. *)
Definition fresh : World := world (credential "1//refresh" "ya29.old" (midnight + 3600000)).
Definition unauthenticated : World := world (credential "" "ya29.old" (midnight + 3600000)).
Definition expired : World := world (credential "1//refresh" "ya29.old" (midnight - 1)).

Definition standupItem : Item := normalize h work 0 standup.
Definition reviewItem : Item := normalize h work 0 review.
Definition lunchItem : Item := normalize h work 0 lunch.
Definition birthdayItem : Item := normalize h personal 1 birthday.
Definition conferenceItem : Item := normalize h holidays 2 conference.
Definition undatedItem : Item := normalize h work 0 undated.

Definition day : string := "2024-03-15".

(** The date the command is run for. *)
Definition today : Js.Date := Js.ValidDate (midnight + 32400000).

Definition dayRequests : list Request :=
  map (eventsRequest (day ++ "T00:00:00Z") (day ++ "T23:59:59Z") "ya29.old")
    [work; personal; holidays].

Definition dayText : string :=
  "## Calendar Events for 2024-03-15" ++ nl ++ nl
  ++ "- **Birthday** (2024-03-15)" ++ nl
  ++ "- **Standup** [Work] (2024-03-15T09:00:00Z)" ++ nl
  ++ "- **Lunch** [Work] (2024-03-15T10:30:00Z)" ++ nl.

End Scenario.

(** ** Loading and storing the settings *)

(** [const DEFAULT_SETTINGS] *)
Definition DEFAULT_SETTINGS : GoogleCalendarSettings :=
  mkSettings "" "" "" "" 0 [mkCalendar "primary" "Primary Calendar"].

(** The object that [loadData()] yields: the keys of the stored JSON that
    are present.  [stored_calendarId] is the key that the single-calendar
    version of the plugin wrote. *)
Record StoredData : Type := mkStoredData {
  stored_clientId : option string;
  stored_clientSecret : option string;
  stored_refreshToken : option string;
  stored_accessToken : option string;
  stored_accessTokenExpiry : option Z;
  stored_calendars : option (list Calendar);
  stored_calendarId : option string
}.

(** One key of [Object.assign({}, DEFAULT_SETTINGS, data)]. *)
Definition assigned {A : Type} (default : A) (stored : option A) : A :=
  match stored with
  | Some v => v
  | None => default
  end.

(** [loadSettings()]: the settings made of what [loadData()] returned,
    [None] when nothing was stored yet. *)
Definition loadSettings (data : option StoredData) : GoogleCalendarSettings :=
  match data with
  | None => DEFAULT_SETTINGS
  | Some d =>
      mkSettings
        (assigned (clientId DEFAULT_SETTINGS) (stored_clientId d))
        (assigned (clientSecret DEFAULT_SETTINGS) (stored_clientSecret d))
        (assigned (refreshToken DEFAULT_SETTINGS) (stored_refreshToken d))
        (assigned (accessToken DEFAULT_SETTINGS) (stored_accessToken d))
        (assigned (accessTokenExpiry DEFAULT_SETTINGS) (stored_accessTokenExpiry d))
        (assigned (calendars DEFAULT_SETTINGS) (stored_calendars d))
  end.

(** ** The settings tab *)

(** [a[i] = x] for an index inside the array. *)
Fixpoint setNth {A : Type} (i : nat) (x : A) (l : list A) : list A :=
  match l, i with
  | [], _ => []
  | _ :: t, O => x :: t
  | y :: t, S j => y :: setNth j x t
  end.

(** The text of a number in a template literal. *)
Definition decimal (n : nat) : string := NilEmpty.string_of_uint (Nat.to_uint n).

Module SettingTab.

(** The notices of the settings tab. *)
Inductive TabNotice : Type :=
| CredentialsRequired            (* Client ID and Secret are required *)
| SetupComplete                  (* OAuth setup complete! ... *)
| ExchangeFailed                 (* Failed to get refresh token. Check your code and credentials. *)
| ExchangeError (err : string).  (* Error exchanging code: err *)

(** The body of the request of [exchangeCodeForToken]. *)
Record ExchangeRequest : Type := mkExchangeRequest {
  code : string;
  client_id : string;
  client_secret : string;
  redirect_uri : string;
  grant_type : string
}.

(** The parsed response to it, seen through the fields that are read. *)
Record ExchangeData : Type := mkExchangeData {
  refresh_token : option string;
  access_token : option string;
  expires_in : option Z
}.

Inductive ExchangeReply : Type :=
| ExchangeThrew (err : string)
| ExchangeParsed (data : ExchangeData).

(** The state seen from the settings tab: the plugin, the exchange
    requests sent, the notices of the tab and the number of times the tab
    was rendered again with [this.display()]. *)
Record Tab : Type := mkTab {
  plugin : World;
  exchangeRequests : list ExchangeRequest;
  tabNotices : list TabNotice;
  displays : nat
}.

(** A method of the plugin run from the tab. *)
Definition onPlugin (m : M unit) (t : Tab) : Tab :=
  mkTab (snd (m (plugin t))) (exchangeRequests t) (tabNotices t) (displays t).

Definition tabNotice (n : TabNotice) (t : Tab) : Tab :=
  mkTab (plugin t) (exchangeRequests t) (tabNotices t ++ [n]) (displays t).

(** [this.display()] *)
Definition display (t : Tab) : Tab :=
  mkTab (plugin t) (exchangeRequests t) (tabNotices t) (S (displays t)).

(** [this.plugin.settings.calendars = cals], as the handlers of the
    calendar rows change the array. *)
Definition setCalendars (cals : list Calendar) : M unit :=
  s <- getSettings ;;
  putSettings (mkSettings (clientId s) (clientSecret s) (refreshToken s)
                 (accessToken s) (accessTokenExpiry s) cals).

(** The end of the handlers that change the array: save, render again. *)
Definition commit (cals : list Calendar) (t : Tab) : Tab :=
  display (onPlugin (setCalendars cals ;; saveSettings) t).

Section Exchange.

(** The token endpoint's answer to an exchange request, and [Date.now()]
    when the answer has arrived. *)
Variable exchangeUrl : ExchangeRequest -> ExchangeReply.
Variable clock : Z.

(** [async exchangeCodeForToken(code: string): Promise<void>].  When the
    response has no [access_token] the field is left [undefined]; it is
    stored here as the empty string, which is as falsy, and is what
    [loadSettings] makes of a stored object without that key. *)
Definition exchangeCodeForToken (code : string) (t : Tab) : Tab :=
  let s := settings (plugin t) in
  if negb (Js.nonEmpty (clientId s)) || negb (Js.nonEmpty (clientSecret s)) then
    tabNotice CredentialsRequired t
  else
    let req := mkExchangeRequest code (clientId s) (clientSecret s)
                 "urn:ietf:wg:oauth:2.0:oob" "authorization_code" in
    let t1 := mkTab (plugin t) (exchangeRequests t ++ [req]) (tabNotices t) (displays t) in
    match exchangeUrl req with
    | ExchangeParsed data =>
        match refresh_token data with
        | Some fresh =>
            if Js.nonEmpty fresh then
              let s' := mkSettings (clientId s) (clientSecret s) fresh
                          (Js.orElse (access_token data) "")
                          (clock + Js.orNum (expires_in data) 3600 * 1000)
                          (calendars s) in
              display (tabNotice SetupComplete
                         (onPlugin (putSettings s' ;; saveSettings) t1))
            else tabNotice ExchangeFailed t1
        | None => tabNotice ExchangeFailed t1
        end
    | ExchangeThrew err => tabNotice (ExchangeError err) t1
    end.

End Exchange.

(** [labelInput.onchange] of row [i]; [None] when
    [calendars[i]] is [undefined] and the assignment throws. *)
Definition onLabelChange (i : nat) (value : string) (t : Tab) : option Tab :=
  let cals := calendars (settings (plugin t)) in
  match nth_error cals i with
  | Some c =>
      Some (onPlugin (setCalendars (setNth i (mkCalendar (id c) value) cals) ;; saveSettings) t)
  | None => None
  end.

(** [idInput.onchange] of row [i]. *)
Definition onIdChange (i : nat) (value : string) (t : Tab) : option Tab :=
  let cals := calendars (settings (plugin t)) in
  match nth_error cals i with
  | Some c =>
      Some (onPlugin (setCalendars (setNth i (mkCalendar value (label c)) cals) ;; saveSettings) t)
  | None => None
  end.

(** [[a[i], a[j]] = [a[j], a[i]]]: the right-hand side is read first, then
    [a[i]] and [a[j]] are assigned in this order.  [None] when an index is
    outside the array, where the assignment would leave [undefined]
    entries that a list of calendars cannot hold. *)
Definition swapEntries (i j : nat) (cals : list Calendar) : option (list Calendar) :=
  match nth_error cals j, nth_error cals i with
  | Some aj, Some ai => Some (setNth j ai (setNth i aj cals))
  | _, _ => None
  end.

(** [moveUpBtn.onclick] of row [i] *)
Definition moveUp (i : nat) (t : Tab) : option Tab :=
  if (0 <? i)%nat then
    match swapEntries i (i - 1) (calendars (settings (plugin t))) with
    | Some cals => Some (commit cals t)
    | None => None
    end
  else Some t.

(** [moveDownBtn.onclick] of row [i] *)
Definition moveDown (i : nat) (t : Tab) : option Tab :=
  if (i <? List.length (calendars (settings (plugin t))) - 1)%nat then
    match swapEntries i (i + 1) (calendars (settings (plugin t))) with
    | Some cals => Some (commit cals t)
    | None => None
    end
  else Some t.

(** [deleteBtn.onclick] of row [i]: [calendars.splice(i, 1)] *)
Definition deleteCalendar (i : nat) (t : Tab) : Tab :=
  let cals := calendars (settings (plugin t)) in
  commit (firstn i cals ++ skipn (S i) cals) t.

(** The handler of the "+ Add Calendar" button. *)
Definition addCalendar (t : Tab) : Tab :=
  let cals := calendars (settings (plugin t)) in
  commit (cals ++ [mkCalendar "primary" ("Calendar " ++ decimal (List.length cals + 1))]) t.

End SettingTab.

(** The settings in memory are the ones saved last. *)
Definition synced (w : World) : Prop :=
  exists earlier, saved w = (earlier ++ [settings w])%list.

(** ** A worked setup *)

Module Setup.

Import Examples Scenario.

(** A host whose calendars have nothing to show: the second one fails, the
    others answer without events. *)
Definition silence (n : nat) (r : Request) : Reply :=
  match r with
  | TokenRequest _ _ _ => offline
  | EventsRequest cal _ _ _ =>
      if cal =? "primary" then Threw "Error: net::ERR_FAILED"
      else Parsed (mkResponseData None None None)
  end.

Definition quiet : Host := mkHost midnight silence parse isoDate true.

(** A host whose first calendar answers with a [null] between two events. *)
Definition gap (n : nat) (r : Request) : Reply :=
  match r with
  | TokenRequest _ _ _ => offline
  | EventsRequest cal _ _ _ =>
      if cal =? "work@example.com" then
        Parsed (mkResponseData None None (Some [Some standup; None; Some lunch]))
      else Parsed (mkResponseData None None None)
  end.

Definition broken : Host := mkHost midnight gap parse isoDate true.

(** A token endpoint that denies with an error status. *)
Definition refused : Reply := Threw "Error: Request failed, status 400".


(** An event whose [dateTime] the engine cannot parse. *)
Definition garbled : RawEvent :=
  mkRawEvent (Some "Garbled") None (Some "15/03/2024 9am") None.

Definition garbledItem : Item := normalize h work 0 garbled.

(** What the single-calendar version stored. *)
Definition legacyData : StoredData :=
  mkStoredData (Some "client") (Some "secret") (Some "1//refresh") (Some "ya29.old")
    (Some (midnight + 3600000)) None (Some "team@example.com").

(** The settings tab over the plugin with its three calendars. *)
Definition tab : SettingTab.Tab := SettingTab.mkTab fresh [] [] 0.

(** A token endpoint that grants the exchange. *)
Definition grant (r : SettingTab.ExchangeRequest) : SettingTab.ExchangeReply :=
  SettingTab.ExchangeParsed
    (SettingTab.mkExchangeData (Some "1//new") (Some "ya29.first") (Some 3599)).

End Setup.

(** ** The token lifecycle *)

Section TokenManager.

Variable host : Host.

Lemma nonEmpty_true (s : string) : Js.nonEmpty s = true <-> s <> "".
Proof.
  unfold Js.nonEmpty. destruct (String.eqb_spec s ""); simpl; split; congruence.
Qed.

Lemma nonEmpty_false (s : string) : Js.nonEmpty s = false <-> s = "".
Proof.
  unfold Js.nonEmpty. destruct (String.eqb_spec s ""); simpl; split; congruence.
Qed.

Lemma stale_not_usable (s : GoogleCalendarSettings) :
  stale host s ->
  Js.nonEmpty (accessToken s) && (now host + 60000 <? accessTokenExpiry s)%Z = false.
Proof.
  intros [E | E].
  - apply nonEmpty_false in E. rewrite E. reflexivity.
  - apply andb_false_iff. right. apply Z.ltb_ge. exact E.
Qed.

(** The run of [ensureValidAccessToken] once the refresh request is
    known to be sent. *)
Lemma ensureValidAccessToken_refresh (w : World) :
  refreshToken (settings w) <> "" ->
  stale host (settings w) ->
  ensureValidAccessToken host w =
  let s := settings w in
  let sent := (requests w ++ [refreshRequest s])%list in
  match requestUrl host (List.length (requests w)) (refreshRequest s) with
  | Parsed data =>
      if Js.truthy (access_token data) then
        let s' := refreshed host s (Js.orElse (access_token data) "") (expires_in data) in
        (true, mkWorld s' sent (saved w ++ [s']) (notices w) (editor w))
      else
        (false, mkWorld s sent (saved w) (notices w ++ [RefreshFailed]) (editor w))
  | ParsedNull =>
      (false, mkWorld s sent (saved w)
                (notices w ++ [RefreshError (Js.nullRead "access_token")]) (editor w))
  | Threw err =>
      (false, mkWorld s sent (saved w) (notices w ++ [RefreshError err]) (editor w))
  end.
Proof.
  intros Hr Hs.
  unfold ensureValidAccessToken, bind, getSettings.
  apply nonEmpty_true in Hr. rewrite Hr.
  rewrite (stale_not_usable _ Hs).
  unfold request, refreshRequest. cbn.
  destruct (requestUrl host _ _) as [err | | data]; [reflexivity | reflexivity |].
  destruct (access_token data) as [tok |]; cbn; [| reflexivity].
  destruct (Js.nonEmpty tok); reflexivity.
Qed.

End TokenManager.

Section TokenClaims.

Variable host : Host.

(** C6. With an empty refresh token, [ensureValidAccessToken] returns
    [false] after showing the "No refresh token" notice, whatever the
    access token and its expiry are: no request is sent, nothing is
    saved and the credential is as before. *)
Theorem ensureValidAccessToken_not_authenticated (w : World) :
  refreshToken (settings w) = "" ->
  ensureValidAccessToken host w =
  (false, mkWorld (settings w) (requests w) (saved w)
            (notices w ++ [NoRefreshToken]) (editor w)).
Proof.
  intros E. unfold ensureValidAccessToken, bind, getSettings.
  rewrite E. reflexivity.
Qed.

(** C5 (amended). With a non-empty refresh token, a non-empty access
    token and an expiry strictly later than now + 60000 ms,
    [ensureValidAccessToken] returns [true] and leaves the whole world
    as it was: no request, no save, no notice, the same credential. *)
Theorem ensureValidAccessToken_fast_path (w : World) :
  refreshToken (settings w) <> "" ->
  accessToken (settings w) <> "" ->
  now host + 60000 < accessTokenExpiry (settings w) ->
  ensureValidAccessToken host w = (true, w).
Proof.
  intros Hr Ha Ht. unfold ensureValidAccessToken, bind, getSettings.
  apply nonEmpty_true in Hr, Ha. rewrite Hr, Ha.
  apply Z.ltb_lt in Ht. rewrite Ht. reflexivity.
Qed.

(** C7 (amended). When the refresh request is sent and no access token
    comes back, [ensureValidAccessToken] returns [false]; the credential is
    the one stored before the call and [saveSettings] is not called.  The
    notice is "Failed to refresh token" when the body parsed to a value
    other than [null] without a (truthy) access token; it is "Token
    refresh error" when the request threw (as a denial with an error
    status does) and when the body was the JSON [null]. *)
Theorem ensureValidAccessToken_refresh_rejected (w : World) :
  refreshToken (settings w) <> "" ->
  stale host (settings w) ->
  let reply := requestUrl host (List.length (requests w)) (refreshRequest (settings w)) in
  let failed (n : Notice) :=
    (false, mkWorld (settings w) (requests w ++ [refreshRequest (settings w)])
              (saved w) (notices w ++ [n]) (editor w)) in
  (forall data,
      reply = Parsed data -> Js.truthy (access_token data) = false ->
      ensureValidAccessToken host w = failed RefreshFailed)
  /\ (reply = ParsedNull ->
      ensureValidAccessToken host w = failed (RefreshError (Js.nullRead "access_token")))
  /\ (forall err,
        reply = Threw err ->
        ensureValidAccessToken host w = failed (RefreshError err)).
Proof.
  intros Hr Hs reply failed. subst reply failed.
  rewrite (ensureValidAccessToken_refresh host w Hr Hs). cbv zeta.
  split; [| split].
  - intros data Hq Hd. rewrite Hq, Hd. reflexivity.
  - intros Hq. rewrite Hq. reflexivity.
  - intros err Hq. rewrite Hq. reflexivity.
Qed.


(** C9. On every run of [ensureValidAccessToken] the refresh token of the
    credential is the one stored before the call, and so are the client
    identity and the configured calendars: only [accessToken] and
    [accessTokenExpiry] can differ. *)
Theorem ensureValidAccessToken_frame (w : World) :
  let s' := settings (snd (ensureValidAccessToken host w)) in
  refreshToken s' = refreshToken (settings w)
  /\ clientId s' = clientId (settings w)
  /\ clientSecret s' = clientSecret (settings w)
  /\ calendars s' = calendars (settings w).
Proof.
  unfold ensureValidAccessToken, bind, getSettings.
  destruct (Js.nonEmpty (refreshToken (settings w))); cbn; [| tauto].
  destruct (Js.nonEmpty (accessToken (settings w)) && _); cbn; [tauto |].
  destruct (requestUrl host _ _) as [err | | data]; cbn; [tauto | tauto |].
  destruct (access_token data) as [tok |]; cbn; [| tauto].
  destruct (Js.nonEmpty tok); cbn; tauto.
Qed.

End TokenClaims.

(** ** The fetch loop *)

Section Aggregation.

Variable host : Host.

Lemma pushEvents_run (c : Calendar) (i : nat) (events : list (option RawEvent)) :
  forall allEvents,
    pushEvents host c i events allEvents =
    ((allEvents ++ map (normalize host c i) (beforeNull events))%list,
     if hasNull events then Some (Js.nullRead "start") else None).
Proof.
  induction events as [| [ev |] rest IH]; intros allEvents; cbn.
  - rewrite app_nil_r. reflexivity.
  - rewrite IH, <- app_assoc. reflexivity.
  - rewrite app_nil_r. reflexivity.
Qed.

Lemma beforeNull_objects {A : Type} (l : list A) :
  beforeNull (map Some l) = l /\ hasNull (map Some l) = false.
Proof.
  induction l as [| x t [IH1 IH2]]; cbn; [auto |]. rewrite IH1. auto.
Qed.

Lemma fetchCalendars_run (timeMin timeMax : string) (cals : list Calendar) :
  forall (calendarIndex : nat) (allEvents : list Item) (w : World),
    let xs := exchanges host timeMin timeMax (accessToken (settings w))
                (List.length (requests w)) calendarIndex cals in
    fetchCalendars host timeMin timeMax calendarIndex cals allEvents w =
    ((allEvents ++ flat_map (contribution host) xs)%list,
     mkWorld (settings w)
       (requests w ++ map (eventsRequest timeMin timeMax (accessToken (settings w))) cals)
       (saved w)
       (notices w ++ flat_map diagnostic xs)
       (editor w)).
Proof.
  induction cals as [| c rest IH]; intros calendarIndex allEvents w.
  - cbn. rewrite !app_nil_r. destruct w; reflexivity.
  - cbn -[eventsRequest]. unfold bind, getSettings, request.
    fold (eventsRequest timeMin timeMax (accessToken (settings w)) c).
    destruct (requestUrl host _ _) as [err | | data].
    + unfold notice. cbn -[eventsRequest]. rewrite IH. cbn -[eventsRequest].
      rewrite length_app, Nat.add_1_r, <- !app_assoc. reflexivity.
    + unfold notice. cbn -[eventsRequest]. rewrite IH. cbn -[eventsRequest].
      rewrite length_app, Nat.add_1_r, <- !app_assoc. reflexivity.
    + rewrite pushEvents_run.
      destruct (hasNull (itemsOf data)).
      * unfold notice. cbn -[eventsRequest]. rewrite IH. cbn -[eventsRequest].
        rewrite length_app, Nat.add_1_r, <- !app_assoc. reflexivity.
      * rewrite IH. cbn -[eventsRequest].
        rewrite length_app, Nat.add_1_r, <- !app_assoc. reflexivity.
Qed.

Lemma exchanges_calendars (timeMin timeMax bearer : string) (cals : list Calendar) :
  forall sent calendarIndex,
    map (fun x => (fst (fst x), snd (fst x)))
      (exchanges host timeMin timeMax bearer sent calendarIndex cals)
    = combine (seq calendarIndex (List.length cals)) cals.
Proof.
  induction cals as [| c rest IH]; intros sent calendarIndex; cbn; [reflexivity |].
  rewrite IH. reflexivity.
Qed.

End Aggregation.

Section AggregationClaims.

Variable host : Host.

(** C4 (amended). Once the access token is valid, at least one calendar
    is configured and the date is a valid one, [fetchAndInsertEvents]
    sends one request per calendar in the configured order and goes on to
    sort and insert whatever was collected, and its promise is fulfilled.
    A calendar whose request throws, or whose body is the JSON [null],
    contributes no event and leaves one "Error fetching events" notice
    naming its label; a calendar that answers with an array of event
    objects contributes their normalization and leaves no notice; the
    collected events are the contributions in the configured order. *)
Theorem fetchAndInsertEvents_partial_failure (t : Z) (w w1 : World) :
  ensureValidAccessToken host w = (true, w1) ->
  calendars (settings w1) <> [] ->
  let cals := calendars (settings w1) in
  let dateStr := toISODate host t in
  let timeMin := dateStr ++ "T00:00:00Z" in
  let timeMax := dateStr ++ "T23:59:59Z" in
  let bearer := accessToken (settings w1) in
  let xs := exchanges host timeMin timeMax bearer (List.length (requests w1)) 0 cals in
  let w2 := mkWorld (settings w1)
              (requests w1 ++ map (eventsRequest timeMin timeMax bearer) cals)
              (saved w1) (notices w1 ++ flat_map diagnostic xs) (editor w1) in
  fetchCalendars host timeMin timeMax 0 cals [] w1 = (flat_map (contribution host) xs, w2)
  /\ fetchAndInsertEvents host (Js.ValidDate t) w =
     (Fulfilled,
      snd (insertEvents host dateStr (List.length cals)
             (flat_map (contribution host) xs) w2))
  /\ map (fun x => (fst (fst x), snd (fst x))) xs = combine (seq 0 (List.length cals)) cals
  /\ (forall i c err,
        contribution host (i, c, Threw err) = []
        /\ diagnostic (i, c, Threw err) = [CalendarError (label c) err])
  /\ (forall i c,
        contribution host (i, c, ParsedNull) = []
        /\ diagnostic (i, c, ParsedNull) = [CalendarError (label c) (Js.nullRead "items")])
  /\ (forall i c data events,
        itemsOf data = map Some events ->
        contribution host (i, c, Parsed data) = map (normalize host c i) events
        /\ diagnostic (i, c, Parsed data) = []).
Proof.
  intros Hok Hcals cals dateStr timeMin timeMax bearer xs w2.
  assert (Hloop : fetchCalendars host timeMin timeMax 0 cals [] w1
                  = (flat_map (contribution host) xs, w2)).
  { subst xs w2 bearer cals. rewrite fetchCalendars_run. reflexivity. }
  split; [exact Hloop |]. split.
  - unfold fetchAndInsertEvents, bind. rewrite Hok. cbn.
    fold cals. destruct cals as [| c rest] eqn:E; [contradiction |].
    cbn [List.length Nat.eqb]. fold dateStr. fold timeMin timeMax. rewrite <- E in *.
    rewrite Hloop.
    match goal with
    | |- context [insertEvents ?a ?b ?c ?d ?e] => destruct (insertEvents a b c d e)
    end.
    reflexivity.
  - split; [apply exchanges_calendars |].
    split; [intros; split; reflexivity |]. split; [intros; split; reflexivity |].
    intros i c data events Hev. unfold contribution, diagnostic. rewrite Hev.
    destruct (beforeNull_objects events) as [-> ->]. split; reflexivity.
Qed.

End AggregationClaims.

(** ** Facts about the stable sort *)

Section ArraySortFacts.

Context {A : Type}.
Variable comparefn : A -> A -> Js.Number.

Local Notation "'cmp'" := (SortCompare comparefn).
Local Notation "'insert'" := (sort_insert comparefn).
Local Notation "'sort'" := (array_sort comparefn).

Lemma sort_insert_perm (x : A) (l : list A) : Permutation (insert x l) (x :: l).
Proof.
  induction l as [| y t IH]; cbn; [reflexivity |].
  destruct (cmp x y <=? 0)%Z; [reflexivity |].
  rewrite IH. apply perm_swap.
Qed.

Lemma array_sort_perm (l : list A) : Permutation (sort l) l.
Proof.
  induction l as [| x t IH]; cbn; [reflexivity |].
  rewrite sort_insert_perm. apply perm_skip, IH.
Qed.

(** Sortedness, for a relation [R] that agrees with the comparator on the
    elements satisfying [P]. *)
Section Sorted.

Variable P : A -> Prop.
Variable R : A -> A -> Prop.
Hypothesis R_trans :
  forall x y z, P x -> P y -> P z -> R x y -> R y z -> R x z.
Hypothesis cmp_le : forall x y, P x -> P y -> cmp x y <= 0 -> R x y.
Hypothesis cmp_gt : forall x y, P x -> P y -> 0 < cmp x y -> R y x.

Lemma sort_insert_sorted (x : A) (l : list A) :
  P x -> Forall P l -> StronglySorted R l -> StronglySorted R (insert x l).
Proof.
  intros Px. induction l as [| y t IH]; intros Pl Sl; cbn.
  - repeat constructor.
  - inversion Pl as [| ? ? Py Pt]; subst.
    inversion Sl as [| ? ? St Ryt]; subst.
    destruct (Z.leb_spec (cmp x y) 0) as [Hle | Hgt].
    + constructor; [exact Sl |]. constructor; [auto |].
      rewrite Forall_forall in *. intros z Hz. eauto.
    + constructor; [auto |].
      rewrite (sort_insert_perm x t). constructor; auto.
Qed.

Lemma array_sort_sorted (l : list A) :
  Forall P l -> StronglySorted R (sort l).
Proof.
  induction l as [| x t IH]; intros Pl; cbn; [constructor |].
  inversion Pl; subst.
  apply sort_insert_sorted; auto.
  rewrite (array_sort_perm t). assumption.
Qed.

End Sorted.

(** Stability: elements of a class [f] within which the comparator never
    answers "greater" keep their relative order. *)
Section Stable.

Variable f : A -> bool.
Hypothesis f_tied : forall x y, f x = true -> f y = true -> cmp x y <= 0.

Lemma sort_insert_filter (x : A) (l : list A) :
  filter f (insert x l) = filter f (x :: l).
Proof.
  induction l as [| y t IH]; [reflexivity |]. cbn [sort_insert].
  destruct (Z.leb_spec (cmp x y) 0) as [Hle | Hgt]; [reflexivity |].
  cbn [filter] in *. rewrite IH.
  destruct (f x) eqn:Fx; [| reflexivity].
  destruct (f y) eqn:Fy; [| reflexivity].
  specialize (f_tied x y Fx Fy). lia.
Qed.

Lemma array_sort_filter (l : list A) : filter f (sort l) = filter f l.
Proof.
  induction l as [| x t IH]; [reflexivity |]. cbn [array_sort].
  rewrite sort_insert_filter. cbn. rewrite IH. reflexivity.
Qed.

End Stable.

End ArraySortFacts.

(** Two sorted lists with the same elements are equal when the order is
    antisymmetric on these elements. *)
Lemma sorted_perm_eq {K : Type} (R : K -> K -> Prop) (P : K -> Prop) :
  (forall x y, P x -> P y -> R x y -> R y x -> x = y) ->
  forall l1 l2 : list K,
    Forall P l1 -> StronglySorted R l1 -> StronglySorted R l2 ->
    Permutation l1 l2 -> l1 = l2.
Proof.
  intros antisym. induction l1 as [| a t1 IH]; intros l2 Pl S1 S2 Hp.
  - apply Permutation_nil in Hp. congruence.
  - destruct l2 as [| b t2].
    { apply Permutation_sym, Permutation_nil in Hp. discriminate. }
    inversion Pl as [| ? ? Pa Pt]; subst.
    inversion S1 as [| ? ? S1t Ra]; subst.
    inversion S2 as [| ? ? S2t Rb]; subst.
    assert (Pl2 : Forall P (b :: t2)).
    { rewrite Forall_forall in *. intros z Hz. apply Pl.
      eapply Permutation_in; [apply Permutation_sym, Hp | exact Hz]. }
    inversion Pl2 as [| ? ? Pb _]; subst.
    assert (E : a = b).
    { assert (Ha : In a (b :: t2)) by (eapply Permutation_in; [exact Hp | left; reflexivity]).
      assert (Hb : In b (a :: t1))
        by (eapply Permutation_in; [apply Permutation_sym, Hp | left; reflexivity]).
      destruct Ha as [-> | Ha]; [reflexivity |].
      destruct Hb as [-> | Hb]; [reflexivity |].
      rewrite Forall_forall in Ra, Rb. apply antisym; auto. }
    subst b. f_equal. apply IH; auto.
    eapply Permutation_cons_inv; exact Hp.
Qed.

Lemma sorted_split {K : Type} (R : K -> K -> Prop) (l1 : list K) (x : K) (l2 : list K) :
  StronglySorted R (l1 ++ x :: l2) -> Forall (fun e => R e x) l1 /\ Forall (R x) l2.
Proof.
  induction l1 as [| a t IH]; cbn; intros S.
  - inversion S; subst. split; [constructor | assumption].
  - inversion S as [| ? ? St Ra]; subst. destruct (IH St) as [H1 H2].
    split; [| exact H2]. constructor; [| exact H1].
    rewrite Forall_forall in Ra. apply Ra. apply in_or_app. right. left. reflexivity.
Qed.

(** ** The merge order of events *)

Ltac items :=
  repeat match goal with
         | e : Item |- _ => destruct e as [? ? ? [|] [[?|]|]]
         end;
  unfold SortCompare, compareEvents, wellFormed, sortKey, keyLe, keyOk, ordered,
    allDayFirst, hasKey, keyEqb, instant in *;
  cbn in *.

Ltac split_eqb :=
  match goal with
  | H : context [(?x =? ?y)%Z] |- _ => destruct (Z.eqb_spec x y)
  | |- context [(?x =? ?y)%Z] => destruct (Z.eqb_spec x y)
  end.

Lemma keyEqb_eq (k1 k2 : Key) : keyEqb k1 k2 = true <-> k1 = k2.
Proof.
  destruct k1 as [[a1 t1] i1], k2 as [[a2 t2] i2]. unfold keyEqb.
  rewrite !andb_true_iff, Bool.eqb_true_iff, Nat.eqb_eq. split.
  - intros [[-> Ht] ->]. destruct t1, t2; try discriminate; [| reflexivity].
    apply Z.eqb_eq in Ht. subst. reflexivity.
  - intros E. injection E as -> -> ->. repeat split.
    destruct t2; [apply Z.eqb_refl | reflexivity].
Qed.

Lemma wellFormed_keyOk (e : Item) : wellFormed e -> keyOk (sortKey e).
Proof. items; intros H; try reflexivity; auto. Qed.

Lemma compare_le_keyLe (a b : Item) :
  wellFormed a -> wellFormed b ->
  SortCompare compareEvents a b <= 0 -> keyLe (sortKey a) (sortKey b).
Proof.
  items; intros Ha Hb H; try tauto; try lia; try (exfalso; auto; fail).
  split_eqb; cbn in *; lia.
Qed.

Lemma compare_gt_keyLe (a b : Item) :
  wellFormed a -> wellFormed b ->
  0 < SortCompare compareEvents a b -> keyLe (sortKey b) (sortKey a).
Proof.
  items; intros Ha Hb H; try tauto; try lia; try (exfalso; auto; fail).
  split_eqb; cbn in *; lia.
Qed.

Lemma keyLe_trans (k1 k2 k3 : Key) :
  keyOk k1 -> keyOk k2 -> keyOk k3 -> keyLe k1 k2 -> keyLe k2 k3 -> keyLe k1 k3.
Proof.
  destruct k1 as [[[|] [x|]] i1], k2 as [[[|] [y|]] i2], k3 as [[[|] [z|]] i3];
    cbn; intros; try tauto; try congruence; lia.
Qed.

Lemma keyLe_antisym (k1 k2 : Key) :
  keyOk k1 -> keyOk k2 -> keyLe k1 k2 -> keyLe k2 k1 -> k1 = k2.
Proof.
  destruct k1 as [[[|] [x|]] i1], k2 as [[[|] [y|]] i2];
    cbn; intros; try tauto; try congruence.
  - f_equal. lia.
  - assert (x = y) by lia. assert (i1 = i2) by lia. congruence.
Qed.

Lemma keyLe_ordered (x y : Item) :
  wellFormed x -> wellFormed y -> keyLe (sortKey x) (sortKey y) -> ordered x y.
Proof.
  items; intros Hx Hy H; repeat split; intros; try congruence; try lia;
    try (exfalso; auto; fail).
  - injection H2 as <-. injection H3 as <-. lia.
  - injection H1 as ->. lia.
Qed.

Lemma compare_same_key (k : Key) (x y : Item) :
  hasKey k x = true -> hasKey k y = true -> SortCompare compareEvents x y <= 0.
Proof.
  unfold hasKey. rewrite !keyEqb_eq. intros ->.
  items; intros E; try discriminate; injection E as E; subst; try lia.
  rewrite Z.eqb_refl. cbn. lia.
Qed.

Lemma compare_le_allDayFirst (a b : Item) :
  SortCompare compareEvents a b <= 0 -> allDayFirst a b.
Proof. items; intros H; try tauto; try lia; try discriminate. Qed.

Lemma compare_gt_allDayFirst (a b : Item) :
  0 < SortCompare compareEvents a b -> allDayFirst b a.
Proof. items; intros H; try tauto; try lia; try discriminate. Qed.

Lemma StronglySorted_map {X Y : Type} (g : X -> Y) (R : Y -> Y -> Prop) (l : list X) :
  StronglySorted (fun a b => R (g a) (g b)) l -> StronglySorted R (map g l).
Proof.
  induction 1 as [| a t St IH Ra]; cbn; constructor; [exact IH |].
  rewrite Forall_forall in *. intros y Hy.
  apply in_map_iff in Hy. destruct Hy as [b [<- Hb]]. auto.
Qed.

Lemma StronglySorted_weaken {X : Type} (P : X -> Prop) (R R' : X -> X -> Prop) (l : list X) :
  (forall x y, P x -> P y -> R x y -> R' x y) ->
  Forall P l -> StronglySorted R l -> StronglySorted R' l.
Proof.
  intros HR Pl S. induction S as [| a t St IH Ra]; constructor.
  - apply IH. inversion Pl; assumption.
  - inversion Pl as [| ? ? Pa Pt]; subst.
    rewrite Forall_forall in *. auto.
Qed.

Lemma sortEvents_wellFormed (l : list Item) :
  Forall wellFormed l -> Forall wellFormed (sortEvents l).
Proof.
  intros H. unfold sortEvents. rewrite (array_sort_perm compareEvents l). exact H.
Qed.

Lemma sortEvents_sorted_keys (l : list Item) :
  Forall wellFormed l ->
  StronglySorted (fun a b => keyLe (sortKey a) (sortKey b)) (sortEvents l).
Proof.
  apply (array_sort_sorted compareEvents wellFormed).
  - intros x y z Px Py Pz. apply keyLe_trans; apply wellFormed_keyOk; assumption.
  - apply compare_le_keyLe.
  - apply compare_gt_keyLe.
Qed.

Lemma sortEvents_allDayFirst (l : list Item) :
  StronglySorted allDayFirst (sortEvents l).
Proof.
  apply (array_sort_sorted compareEvents (fun _ => True)).
  - unfold allDayFirst. auto.
  - intros x y _ _. apply compare_le_allDayFirst.
  - intros x y _ _. apply compare_gt_allDayFirst.
  - rewrite Forall_forall. auto.
Qed.

Lemma normalize_wellFormed (host : Host) (c : Calendar) (i : nat) (ev : RawEvent) :
  (forall s, start_dateTime ev = Some s -> parseDate host s <> Js.InvalidDate) ->
  wellFormed (normalize host c i ev).
Proof.
  intros Hp. unfold wellFormed, normalize, instant, Js.or. cbn.
  destruct (start_dateTime ev) as [s |]; cbn; [| discriminate].
  destruct (Js.nonEmpty s) eqn:E; cbn; [| discriminate].
  rewrite E. intros _. specialize (Hp s eq_refl).
  destruct (parseDate host s); congruence.
Qed.

Lemma beforeNull_In {A : Type} (x : A) (l : list (option A)) :
  In x (beforeNull l) -> In (Some x) l.
Proof.
  induction l as [| [y |] t IH]; cbn; try contradiction.
  intros [-> | H]; auto.
Qed.

(** The events collected by the fetch loop are well formed when the engine
    parses the [dateTime] strings that the calendars sent. *)
Lemma collected_wellFormed (host : Host) (xs : list (nat * Calendar * Reply)) :
  (forall i c data ev s,
      In (i, c, Parsed data) xs -> In (Some ev) (itemsOf data) ->
      start_dateTime ev = Some s -> parseDate host s <> Js.InvalidDate) ->
  Forall wellFormed (flat_map (contribution host) xs).
Proof.
  intros Hp. rewrite Forall_forall. intros e He.
  apply in_flat_map in He. destruct He as [[[i c] r] [Hx He]].
  destruct r as [err | | data]; cbn in He; try contradiction.
  apply in_map_iff in He. destruct He as [ev [<- Hev]].
  apply normalize_wellFormed. intros s Hs.
  exact (Hp i c data ev s Hx (beforeNull_In _ _ Hev) Hs).
Qed.

Section OrderClaims.

(** C1 (amended). For events in which every timed event has a start
    instant, the sorted list is a permutation of the input in which every
    event and every later event are [ordered]: no timed event comes before
    an all-day event, timed events are non-decreasing by start instant, and
    events with the same classification and the same start are in
    non-decreasing calendar index.  Every permutation of the input yields
    the same sequence of sort keys, and the events with one sort key come
    out in the order in which they came in. *)
Theorem sortEvents_order (l : list Item) :
  Forall wellFormed l ->
  Permutation (sortEvents l) l
  /\ StronglySorted ordered (sortEvents l)
  /\ (forall l', Permutation l l' ->
        map sortKey (sortEvents l') = map sortKey (sortEvents l))
  /\ (forall k, filter (hasKey k) (sortEvents l) = filter (hasKey k) l).
Proof.
  intros Hl. split; [apply array_sort_perm |]. split; [| split].
  - apply (StronglySorted_weaken wellFormed (fun a b => keyLe (sortKey a) (sortKey b))).
    + apply keyLe_ordered.
    + apply sortEvents_wellFormed, Hl.
    + apply sortEvents_sorted_keys, Hl.
  - intros l' Hp.
    assert (Hl' : Forall wellFormed l') by (rewrite <- Hp; exact Hl).
    apply (sorted_perm_eq keyLe keyOk keyLe_antisym).
    + apply Forall_map. apply sortEvents_wellFormed in Hl'.
      rewrite Forall_forall in *. intros e He. apply wellFormed_keyOk. auto.
    + apply StronglySorted_map, sortEvents_sorted_keys, Hl'.
    + apply StronglySorted_map, sortEvents_sorted_keys, Hl.
    + apply Permutation_map. unfold sortEvents.
      rewrite !array_sort_perm. symmetry. exact Hp.
  - intros k. apply array_sort_filter. apply compare_same_key.
Qed.

(** C2 (amended). For two all-day events the comparator does not look at
    the start instants: its answer is the difference of the calendar
    indices.  For two timed events with start instants the earlier one
    compares strictly smaller, and equal instants give the difference of
    the calendar indices. *)
Theorem compareEvents_instants (a b : Item) :
  (isAllDay a = true -> isAllDay b = true ->
   compareEvents a b = Js.Fin (Z.of_nat (calendarIndex a) - Z.of_nat (calendarIndex b)))
  /\ (forall ta tb,
        isAllDay a = false -> isAllDay b = false ->
        startTime a = Some (Js.ValidDate ta) -> startTime b = Some (Js.ValidDate tb) ->
        (ta < tb -> SortCompare compareEvents a b < 0)
        /\ (ta = tb ->
            compareEvents a b
            = Js.Fin (Z.of_nat (calendarIndex a) - Z.of_nat (calendarIndex b)))).
Proof.
  split.
  - intros Ha Hb. unfold compareEvents. rewrite Ha, Hb. reflexivity.
  - intros ta tb Ha Hb Sa Sb. unfold SortCompare, compareEvents.
    rewrite Ha, Hb, Sa, Sb. cbn. split; intros H.
    + destruct (Z.eqb_spec ta tb); cbn; lia.
    + apply Z.eqb_eq in H. rewrite H. reflexivity.
Qed.

End OrderClaims.

Section RenderClaims.

Variable host : Host.

(** The start-time marker and the classification of an absent start. *)
Lemma normalize_falsy_start (calendar : Calendar) (i : nat) (ev : RawEvent) :
  Js.truthy (start_dateTime ev) = false ->
  Js.truthy (start_date ev) = false ->
  let item := normalize host calendar i ev in
  isAllDay item = true /\ startTime item = None /\ line_startTime item = "All day".
Proof.
  intros Hdt Hd. unfold normalize, line_startTime, Js.or, Js.orElse. cbn.
  rewrite Hdt. cbn.
  unfold Js.truthy in Hd. destruct (start_date ev) as [s |]; [| auto].
  rewrite Hd. auto.
Qed.

(** C3 (amended). For the item that normalization makes of an event: the
    start-time marker of a timed event is its raw [dateTime] string; that
    of an all-day event is its raw [date] string when it has one, and the
    literal "All day" only when it has none; the bracketed label is left
    out exactly when the calendar label is empty. *)
Theorem renderLine_marker (calendar : Calendar) (i : nat) (ev : RawEvent) :
  let item := normalize host calendar i ev in
  renderLine item =
    "- **" ++ line_title item ++ "**" ++ line_calendar item
      ++ " (" ++ line_startTime item ++ ")" ++ line_description item ++ nl
  /\ (isAllDay item = false ->
      exists s, start_dateTime ev = Some s /\ s <> "" /\ line_startTime item = s)
  /\ (isAllDay item = true ->
      forall s, start_date ev = Some s -> s <> "" -> line_startTime item = s)
  /\ (isAllDay item = true -> Js.truthy (start_date ev) = false ->
      line_startTime item = "All day")
  /\ (label calendar = "" -> line_calendar item = "")
  /\ (label calendar <> "" -> line_calendar item = " [" ++ label calendar ++ "]").
Proof.
  cbv zeta. split; [reflexivity |].
  unfold line_startTime, line_calendar, normalize, Js.or. cbn.
  repeat split.
  - intros H. apply negb_false_iff in H.
    destruct (start_dateTime ev) as [s |]; [| discriminate]. cbn in *.
    exists s. rewrite H. repeat split; [apply nonEmpty_true, H |].
    cbn. rewrite H. reflexivity.
  - intros H s Hs Hne. apply negb_true_iff in H. rewrite H, Hs. cbn.
    apply nonEmpty_true in Hne. rewrite Hne. reflexivity.
  - intros H Hd. apply negb_true_iff in H. rewrite H.
    unfold Js.truthy in Hd. destruct (start_date ev) as [s |]; [| reflexivity].
    cbn. rewrite Hd. reflexivity.
  - intros ->. reflexivity.
  - intros H. apply nonEmpty_true in H. rewrite H. reflexivity.
Qed.

(** C10. An event with neither [start.dateTime] nor [start.date] is
    normalized to an all-day item with a null start time; the comparator
    puts it before every timed event, so that in the sorted list only
    all-day events come before it; and its start-time marker is the
    literal "All day". *)
Theorem normalize_without_start (calendar : Calendar) (i : nat) (ev : RawEvent) :
  start_dateTime ev = None ->
  start_date ev = None ->
  let item := normalize host calendar i ev in
  isAllDay item = true
  /\ startTime item = None
  /\ (forall other, isAllDay other = false ->
        compareEvents item other = Js.Fin (-1) /\ compareEvents other item = Js.Fin 1)
  /\ (forall l before after,
        sortEvents l = (before ++ item :: after)%list ->
        Forall (fun e => isAllDay e = true) before
        /\ forall e, In e l -> isAllDay e = false -> In e after)
  /\ line_startTime item = "All day".
Proof.
  intros Hdt Hd item.
  destruct (normalize_falsy_start calendar i ev) as [Ha [Hs Hm]];
    [rewrite Hdt; reflexivity | rewrite Hd; reflexivity |].
  fold item in Ha, Hs, Hm.
  split; [exact Ha |]. split; [exact Hs |]. split; [| split; [| exact Hm]].
  - intros other Ho. unfold compareEvents. rewrite Ha, Ho. auto.
  - intros l before after E.
    assert (Hb : Forall (fun e => isAllDay e = true) before).
    { pose proof (sortEvents_allDayFirst l) as S. rewrite E in S.
      apply sorted_split in S. destruct S as [S _].
      rewrite Forall_forall in *. intros e He. apply (S e He). exact Ha. }
    split; [exact Hb |]. intros e He Ht.
    assert (Hin : In e (before ++ item :: after)).
    { rewrite <- E. unfold sortEvents.
      eapply Permutation_in; [symmetry; apply array_sort_perm | exact He]. }
    apply in_app_or in Hin. destruct Hin as [Hin | [Hin | Hin]].
    + rewrite Forall_forall in Hb. apply Hb in Hin. congruence.
    + subst e. congruence.
    + exact Hin.
Qed.

End RenderClaims.


Section Witnesses.

Import Examples Scenario.

Ltac wf := repeat constructor; unfold wellFormed; cbn; congruence.

Lemma ensureValidAccessToken_not_authenticated_witness :
  refreshToken (settings unauthenticated) = ""
  /\ ensureValidAccessToken h unauthenticated =
     (false, mkWorld (settings unauthenticated) [] [] [NoRefreshToken] []).
Proof.
  split; [reflexivity |].
  apply (ensureValidAccessToken_not_authenticated h unauthenticated). reflexivity.
Defined.

(** C5 as stated fails: a usable access token next to an empty refresh
    token is refused. *)
Lemma fast_path_without_refresh_token :
  accessToken (settings unauthenticated) <> ""
  /\ now h + 60000 < accessTokenExpiry (settings unauthenticated)
  /\ fst (ensureValidAccessToken h unauthenticated) = false
  /\ notices (snd (ensureValidAccessToken h unauthenticated)) = [NoRefreshToken].
Proof.
  split; [discriminate |]. repeat split.
Qed.

Lemma ensureValidAccessToken_fast_path_witness :
  ensureValidAccessToken h fresh = (true, fresh).
Proof.
  apply (ensureValidAccessToken_fast_path h fresh); cbn; [discriminate | discriminate | reflexivity].
Defined.

Lemma ensureValidAccessToken_refresh_rejected_witness :
  ensureValidAccessToken (host denied) expired =
  (false, mkWorld (settings expired) [refreshRequest (settings expired)] []
            [RefreshFailed] []).
Proof.
  apply (proj1 (ensureValidAccessToken_refresh_rejected (host denied) expired
                  ltac:(discriminate)
                  ltac:(right; cbn; unfold midnight; lia))
           (mkResponseData None None None)).
  - reflexivity.
  - reflexivity.
Defined.

(** C7 as stated fails: a denial with an error status, and a body that is
    the JSON [null], carry no access token and end in the "Token refresh
    error" notice. *)
Lemma refresh_denied_without_rejection_notice :
  requestUrl (host Setup.refused) 0 (refreshRequest (settings expired))
  = Threw "Error: Request failed, status 400"
  /\ ensureValidAccessToken (host Setup.refused) expired =
     (false, mkWorld (settings expired) [refreshRequest (settings expired)] []
               [RefreshError "Error: Request failed, status 400"] [])
  /\ ensureValidAccessToken (host ParsedNull) expired =
     (false, mkWorld (settings expired) [refreshRequest (settings expired)] []
               [RefreshError (Js.nullRead "access_token")] [])
  /\ notices (snd (ensureValidAccessToken (host Setup.refused) expired)) <> [RefreshFailed]
  /\ notices (snd (ensureValidAccessToken (host ParsedNull) expired)) <> [RefreshFailed].
Proof.
  split; [reflexivity |]. split; [reflexivity |]. split; [reflexivity |].
  split; discriminate.
Qed.



Lemma fetchAndInsertEvents_partial_failure_witness :
  fetchAndInsertEvents h today fresh =
  (Fulfilled, mkWorld (settings fresh) dayRequests []
                [CalendarError "Personal" "Error: net::ERR_FAILED"; Inserted 3 3]
                [dayText]).
Proof.
  destruct (fetchAndInsertEvents_partial_failure h (midnight + 32400000) fresh fresh)
    as [_ [Hrun _]].
  - reflexivity.
  - discriminate.
  - unfold today. rewrite Hrun. reflexivity.
Defined.

(** C4 as stated fails: a calendar whose reply holds a [null] after an
    event is recorded with a notice and still contributes that event. *)
Lemma null_item_keeps_earlier_events :
  fst (fetchCalendars Setup.broken (day ++ "T00:00:00Z") (day ++ "T23:59:59Z") 0
         [work; personal; holidays] [] fresh)
  = [standupItem]
  /\ notices (snd (fetchCalendars Setup.broken (day ++ "T00:00:00Z")
                     (day ++ "T23:59:59Z") 0 [work; personal; holidays] [] fresh))
     = [CalendarError "Work" (Js.nullRead "start")]
  /\ fetchAndInsertEvents Setup.broken today fresh =
     (Fulfilled, mkWorld (settings fresh) dayRequests []
                   [CalendarError "Work" (Js.nullRead "start"); Inserted 1 3]
                   ["## Calendar Events for 2024-03-15" ++ nl ++ nl
                    ++ "- **Standup** [Work] (2024-03-15T09:00:00Z)" ++ nl]).
Proof.
  split; [reflexivity |]. split; reflexivity.
Qed.

Lemma sortEvents_order_witness :
  Forall wellFormed [lunchItem; birthdayItem; reviewItem; standupItem]
  /\ sortEvents [lunchItem; birthdayItem; reviewItem; standupItem]
     = [birthdayItem; reviewItem; standupItem; lunchItem]
  /\ StronglySorted ordered (sortEvents [lunchItem; birthdayItem; reviewItem; standupItem])
  /\ map sortKey (sortEvents [standupItem; reviewItem; birthdayItem; lunchItem])
     = map sortKey (sortEvents [lunchItem; birthdayItem; reviewItem; standupItem]).
Proof.
  assert (W : Forall wellFormed [lunchItem; birthdayItem; reviewItem; standupItem]) by wf.
  destruct (sortEvents_order _ W) as [_ [S [D _]]].
  split; [exact W |]. split; [reflexivity |]. split; [exact S |].
  apply D. apply Permutation_rev.
Defined.

(** C1 as stated fails: two events of one calendar at one instant come out
    in the order in which they came in. *)
Lemma sortEvents_depends_on_input_order :
  Forall wellFormed [standupItem; reviewItem]
  /\ Permutation [standupItem; reviewItem] [reviewItem; standupItem]
  /\ sortEvents [standupItem; reviewItem] = [standupItem; reviewItem]
  /\ sortEvents [reviewItem; standupItem] = [reviewItem; standupItem]
  /\ sortEvents [standupItem; reviewItem] <> sortEvents [reviewItem; standupItem].
Proof.
  split; [wf |]. split; [apply perm_swap |].
  split; [reflexivity |]. split; [reflexivity |]. discriminate.
Qed.

Lemma compareEvents_instants_witness :
  compareEvents conferenceItem birthdayItem = Js.Fin 1
  /\ SortCompare compareEvents standupItem lunchItem < 0.
Proof.
  split.
  - apply (proj1 (compareEvents_instants conferenceItem birthdayItem)); reflexivity.
  - apply (proj2 (compareEvents_instants standupItem lunchItem)
             (midnight + 32400000) (midnight + 37800000)); reflexivity.
Defined.

(** C2 as stated fails: of two all-day events with start instants the
    earlier one is sorted second when its calendar comes second. *)
Lemma allDay_instants_ignored :
  isAllDay conferenceItem = true /\ isAllDay birthdayItem = true
  /\ startTime conferenceItem = Some (Js.ValidDate (midnight - 86400000))
  /\ startTime birthdayItem = Some (Js.ValidDate midnight)
  /\ midnight - 86400000 < midnight
  /\ compareEvents conferenceItem birthdayItem = Js.Fin 1
  /\ sortEvents [conferenceItem; birthdayItem] = [birthdayItem; conferenceItem].
Proof.
  split; [reflexivity |]. split; [reflexivity |]. split; [reflexivity |].
  split; [reflexivity |]. split; [unfold midnight; lia |].
  split; reflexivity.
Qed.

End Witnesses.

Section RenderWitnesses.

Import Examples Scenario.

Lemma renderLine_marker_witness :
  line_startTime standupItem = "2024-03-15T09:00:00Z"
  /\ line_startTime birthdayItem = "2024-03-15"
  /\ line_startTime undatedItem = "All day"
  /\ line_calendar (normalize h holidays 2 birthday) = "".
Proof.
  split; [| split; [| split]].
  - destruct (proj1 (proj2 (renderLine_marker h work 0 standup)) eq_refl)
      as [s [Hs [_ Hm]]].
    fold standupItem in Hm. rewrite Hm. injection Hs as <-. reflexivity.
  - apply (proj1 (proj2 (proj2 (renderLine_marker h personal 1 birthday))));
      [reflexivity | reflexivity | discriminate].
  - apply (proj1 (proj2 (proj2 (proj2 (renderLine_marker h work 0 undated)))));
      reflexivity.
  - apply (proj1 (proj2 (proj2 (proj2 (proj2 (renderLine_marker h holidays 2 birthday))))));
      reflexivity.
Defined.

(** C3 as stated fails: an all-day event that has a date shows that date,
    not "All day". *)
Lemma allDay_marker_is_the_date :
  isAllDay birthdayItem = true
  /\ line_startTime birthdayItem = "2024-03-15"
  /\ line_startTime birthdayItem <> "All day"
  /\ renderLine birthdayItem = "- **Birthday** [Personal] (2024-03-15)" ++ nl.
Proof.
  split; [reflexivity |]. split; [reflexivity |]. split; [discriminate | reflexivity].
Qed.

Lemma normalize_without_start_witness :
  isAllDay undatedItem = true
  /\ startTime undatedItem = None
  /\ compareEvents undatedItem standupItem = Js.Fin (-1)
  /\ line_startTime undatedItem = "All day"
  /\ sortEvents [standupItem; undatedItem] = [undatedItem; standupItem].
Proof.
  destruct (normalize_without_start h work 0 undated eq_refl eq_refl)
    as [Ha [Hs [Hc [_ Hm]]]].
  split; [exact Ha |]. split; [exact Hs |].
  split; [apply (Hc standupItem); reflexivity |].
  split; [exact Hm | reflexivity].
Defined.

End RenderWitnesses.

(** ** More on the token lifecycle *)

Section TokenRuns.

Variable host : Host.

(** The three ways a run of [ensureValidAccessToken] can go. *)
Lemma ensureValidAccessToken_cases (w : World) :
  (refreshToken (settings w) = ""
   /\ ensureValidAccessToken host w =
      (false, mkWorld (settings w) (requests w) (saved w)
                (notices w ++ [NoRefreshToken]) (editor w)))
  \/ (refreshToken (settings w) <> ""
      /\ accessToken (settings w) <> ""
      /\ now host + 60000 < accessTokenExpiry (settings w)
      /\ ensureValidAccessToken host w = (true, w))
  \/ (refreshToken (settings w) <> ""
      /\ stale host (settings w)
      /\ exists sent,
           sent = (requests w ++ [refreshRequest (settings w)])%list
           /\ ((exists err,
                  (requestUrl host (List.length (requests w)) (refreshRequest (settings w))
                   = Threw err
                   \/ (requestUrl host (List.length (requests w)) (refreshRequest (settings w))
                       = ParsedNull /\ err = Js.nullRead "access_token"))
                  /\ ensureValidAccessToken host w =
                     (false, mkWorld (settings w) sent (saved w)
                               (notices w ++ [RefreshError err]) (editor w)))
               \/ (exists data,
                     requestUrl host (List.length (requests w)) (refreshRequest (settings w))
                     = Parsed data
                     /\ Js.truthy (access_token data) = false
                     /\ ensureValidAccessToken host w =
                        (false, mkWorld (settings w) sent (saved w)
                                  (notices w ++ [RefreshFailed]) (editor w)))
               \/ (exists data tok,
                     requestUrl host (List.length (requests w)) (refreshRequest (settings w))
                     = Parsed data
                     /\ access_token data = Some tok /\ tok <> ""
                     /\ ensureValidAccessToken host w =
                        (true, mkWorld (refreshed host (settings w) tok (expires_in data)) sent
                                 (saved w ++ [refreshed host (settings w) tok (expires_in data)])
                                 (notices w) (editor w))))).
Proof.
  destruct (String.eqb_spec (refreshToken (settings w)) "") as [E | Hr].
  { left. split; [exact E |].
    unfold ensureValidAccessToken, bind, getSettings. rewrite E. reflexivity. }
  right.
  destruct (String.eqb_spec (accessToken (settings w)) "") as [Ea | Ha];
    [| destruct (Z.ltb_spec (now host + 60000) (accessTokenExpiry (settings w)))
        as [Ht | Ht]].
  2: { left. repeat split; try assumption.
       unfold ensureValidAccessToken, bind, getSettings.
       apply nonEmpty_true in Hr, Ha. rewrite Hr, Ha.
       apply Z.ltb_lt in Ht. rewrite Ht. reflexivity. }
  all: right; assert (Hs : stale host (settings w)) by (unfold stale; auto).
  all: split; [exact Hr |]; split; [exact Hs |]; eexists; split; [reflexivity |].
  all: rewrite (ensureValidAccessToken_refresh host w Hr Hs); cbv zeta.
  all: destruct (requestUrl host _ _) as [err | | data] eqn:Hq;
         [left; exists err; split; [left |]; reflexivity
         | left; eexists; split; [right; split |]; reflexivity |].
  all: right; destruct (Js.truthy (access_token data)) eqn:Hd;
         [right | left; exists data; repeat split; assumption].
  all: unfold Js.truthy in Hd; destruct (access_token data) as [tok |] eqn:Htok;
         [| discriminate].
  all: exists data, tok; split; [reflexivity |]; split; [exact Htok |].
  all: split; [apply nonEmpty_true, Hd |]; cbn; rewrite Hd; reflexivity.
Qed.

Lemma ensureValidAccessToken_true (w w1 : World) :
  ensureValidAccessToken host w = (true, w1) ->
  accessToken (settings w1) <> "" /\ refreshToken (settings w1) <> ""
  /\ notices w1 = notices w
  /\ calendars (settings w1) = calendars (settings w).
Proof.
  destruct (ensureValidAccessToken_cases w)
    as [[E ->] | [[Hr [Ha [Ht ->]]] | [Hr [Hs [sent [-> H]]]]]].
  - discriminate.
  - intros H. injection H as <-. auto.
  - destruct H as [[err [_ ->]] | [[data [_ [_ ->]]] | [data [tok [_ [_ [Hne ->]]]]]]];
      try discriminate.
    intros H. injection H as <-. cbn. auto.
Qed.

Lemma ensureValidAccessToken_false (w w1 : World) :
  ensureValidAccessToken host w = (false, w1) ->
  settings w1 = settings w /\ saved w1 = saved w
  /\ exists n, notices w1 = (notices w ++ [n])%list.
Proof.
  destruct (ensureValidAccessToken_cases w)
    as [[E ->] | [[Hr [Ha [Ht ->]]] | [Hr [Hs [sent [-> H]]]]]].
  - intros H. injection H as <-. cbn. eauto.
  - discriminate.
  - destruct H as [[err [_ ->]] | [[data [_ [_ ->]]] | [data [tok [_ [_ [Hne ->]]]]]]];
      try discriminate; intros H; injection H as <-; cbn; eauto.
Qed.

(** X1. When the refresh request throws (no network, error status, a body
    that does not parse), [ensureValidAccessToken] returns [false] with the
    "Token refresh error" notice carrying the error; one request was sent,
    the credential is as before and nothing is saved. *)
Theorem ensureValidAccessToken_transport_failure (w : World) (err : string) :
  refreshToken (settings w) <> "" ->
  stale host (settings w) ->
  requestUrl host (List.length (requests w)) (refreshRequest (settings w)) = Threw err ->
  ensureValidAccessToken host w =
  (false, mkWorld (settings w) (requests w ++ [refreshRequest (settings w)])
            (saved w) (notices w ++ [RefreshError err]) (editor w)).
Proof.
  intros Hr Hs Hq.
  rewrite (ensureValidAccessToken_refresh host w Hr Hs). cbv zeta.
  rewrite Hq. reflexivity.
Qed.

(** X2. What the result of [ensureValidAccessToken] tells: after [true]
    the stored access token and refresh token are not empty and no notice
    was shown; after [false] exactly one notice was shown. *)
Theorem ensureValidAccessToken_result (w : World) :
  let ok := fst (ensureValidAccessToken host w) in
  let w' := snd (ensureValidAccessToken host w) in
  if ok then
    accessToken (settings w') <> "" /\ refreshToken (settings w') <> ""
    /\ notices w' = notices w
  else
    exists n, notices w' = (notices w ++ [n])%list.
Proof.
  cbv zeta. destruct (ensureValidAccessToken host w) as [[|] w1] eqn:Hrun; cbn [fst snd].
  - destruct (ensureValidAccessToken_true w w1 Hrun) as [Ha [Hr [Hn _]]]. auto.
  - apply (ensureValidAccessToken_false w w1 Hrun).
Qed.

(** X3. Calling again after a success: when the expiry left by a
    successful call is later than now + 60000 ms, a second call at the same
    instant returns [true] and changes nothing; when it is not (a granted
    lifetime of a minute or less), the second call sends a refresh request
    again. *)
Theorem ensureValidAccessToken_again (w w1 : World) :
  ensureValidAccessToken host w = (true, w1) ->
  (now host + 60000 < accessTokenExpiry (settings w1) ->
   ensureValidAccessToken host w1 = (true, w1))
  /\ (accessTokenExpiry (settings w1) <= now host + 60000 ->
      requests (snd (ensureValidAccessToken host w1))
      = (requests w1 ++ [refreshRequest (settings w1)])%list).
Proof.
  intros Hrun.
  destruct (ensureValidAccessToken_true w w1 Hrun) as [Ha [Hr _]]. split; intros Ht.
  - destruct (ensureValidAccessToken_cases w1)
      as [[E _] | [[_ [_ [_ H]]] | [_ [[Hs | Hs] _]]]];
      [contradiction | exact H | contradiction | lia].
  - assert (Hs : stale host (settings w1)) by (right; exact Ht).
    rewrite (ensureValidAccessToken_refresh host w1 Hr Hs). cbv zeta.
    destruct (requestUrl host _ _) as [err | | data]; [reflexivity | reflexivity |].
    destruct (Js.truthy (access_token data)); reflexivity.
Qed.

Lemma ensureValidAccessToken_editor (w : World) :
  editor (snd (ensureValidAccessToken host w)) = editor w.
Proof.
  destruct (ensureValidAccessToken_cases w)
    as [[E ->] | [[Hr [Ha [Ht ->]]] | [Hr [Hs [sent [-> H]]]]]]; try reflexivity.
  destruct H as [[err [_ ->]] | [[data [_ [_ ->]]] | [data [tok [_ [_ [Hne ->]]]]]]];
    reflexivity.
Qed.

End TokenRuns.

(** ** More on the command *)

Section CommandRuns.

Variable host : Host.

(** A run of [fetchAndInsertEvents] in terms of the token check, the
    exchanges of the loop and the insertion. *)
Lemma fetchAndInsertEvents_run (date : Js.Date) (w : World) :
  fetchAndInsertEvents host date w =
  let w1 := snd (ensureValidAccessToken host w) in
  let cals := calendars (settings w1) in
  let bearer := accessToken (settings w1) in
  if fst (ensureValidAccessToken host w) then
    match cals with
    | [] => (Fulfilled, snd (notice NoCalendars w1))
    | _ :: _ =>
        match date with
        | Js.InvalidDate => (Rejected Js.invalidTime, w1)
        | Js.ValidDate t =>
            let dateStr := toISODate host t in
            let timeMin := dateStr ++ "T00:00:00Z" in
            let timeMax := dateStr ++ "T23:59:59Z" in
            let xs := exchanges host timeMin timeMax bearer
                        (List.length (requests w1)) 0 cals in
            (Fulfilled,
             snd (insertEvents host dateStr (List.length cals)
                    (flat_map (contribution host) xs)
                    (mkWorld (settings w1)
                       (requests w1 ++ map (eventsRequest timeMin timeMax bearer) cals)
                       (saved w1) (notices w1 ++ flat_map diagnostic xs) (editor w1))))
        end
    end
  else (Fulfilled, w1).
Proof.
  unfold fetchAndInsertEvents, bind.
  destruct (ensureValidAccessToken host w) as [[|] w1]; cbn; [| reflexivity].
  destruct (calendars (settings w1)) as [| c rest] eqn:E; [reflexivity |].
  cbn [List.length Nat.eqb]. destruct date as [t |]; [| reflexivity].
  rewrite <- E. rewrite fetchCalendars_run. cbv zeta. cbn [app].
  match goal with
  | |- context [insertEvents ?a ?b ?c ?d ?e] => destruct (insertEvents a b c d e)
  end.
  reflexivity.
Qed.

(** The insertion touches the notices and the editor only. *)
Lemma insertEvents_run (dateStr : string) (sources : nat) (l : list Item) (w : World) :
  insertEvents host dateStr sources l w =
  (tt, mkWorld (settings w) (requests w) (saved w)
         (notices w ++ [match l with
                        | [] => NoEvents dateStr
                        | _ :: _ => if activeView host
                                    then Inserted (List.length l) sources
                                    else NoActiveNote
                        end])
         (editor w ++ match l with
                      | [] => []
                      | _ :: _ => if activeView host
                                  then [renderEvents dateStr (sortEvents l)]
                                  else []
                      end)).
Proof.
  unfold insertEvents. destruct l as [| x t].
  - cbn. rewrite app_nil_r. reflexivity.
  - cbn [List.length Nat.eqb]. cbv zeta.
    assert (Hlen : List.length (sortEvents (x :: t)) = List.length (x :: t))
      by apply (Permutation_length (array_sort_perm compareEvents (x :: t))).
    rewrite Hlen. generalize (sortEvents (x :: t)) as sorted. intros sorted.
    destruct (activeView host); unfold bind, replaceSelection, notice; cbn.
    + reflexivity.
    + rewrite app_nil_r. reflexivity.
Qed.

(** X4. The event requests of [fetchAndInsertEvents].  After a failed token
    check, or for an Invalid Date, none is sent; for a valid date after a
    successful check exactly one is sent per configured calendar, in the
    configured order, for the UTC day and with the access token as the
    check left it, which is not empty. *)
Theorem fetchAndInsertEvents_requests (date : Js.Date) (w : World) :
  let ok := fst (ensureValidAccessToken host w) in
  let w1 := snd (ensureValidAccessToken host w) in
  requests (snd (fetchAndInsertEvents host date w))
  = (requests w1 ++
     match date with
     | Js.ValidDate t =>
         if ok then
           map (eventsRequest (toISODate host t ++ "T00:00:00Z")
                  (toISODate host t ++ "T23:59:59Z") (accessToken (settings w1)))
             (calendars (settings w1))
         else []
     | Js.InvalidDate => []
     end)%list
  /\ (ok = true -> accessToken (settings w1) <> "").
Proof.
  cbv zeta. split.
  - rewrite fetchAndInsertEvents_run. cbv zeta.
    destruct (fst (ensureValidAccessToken host w));
      [| destruct date; cbn; rewrite app_nil_r; reflexivity].
    destruct (calendars (settings (snd (ensureValidAccessToken host w)))) as [| c rest] eqn:E.
    + destruct date; cbn; rewrite app_nil_r; reflexivity.
    + destruct date as [t |]; [| cbn; rewrite app_nil_r; reflexivity].
      rewrite insertEvents_run. reflexivity.
  - intros Hok. destruct (ensureValidAccessToken host w) as [ok w1] eqn:Hrun.
    cbn in Hok. subst ok. apply (ensureValidAccessToken_true host w w1 Hrun).
Qed.

(** X5. [fetchAndInsertEvents] changes the settings and saves them only
    through the token check: for every date, the settings and the list of
    saves after the command are those after [ensureValidAccessToken]. *)
Theorem fetchAndInsertEvents_settings (date : Js.Date) (w : World) :
  settings (snd (fetchAndInsertEvents host date w))
  = settings (snd (ensureValidAccessToken host w))
  /\ saved (snd (fetchAndInsertEvents host date w))
     = saved (snd (ensureValidAccessToken host w)).
Proof.
  rewrite fetchAndInsertEvents_run. cbv zeta.
  destruct (fst (ensureValidAccessToken host w)); [| split; reflexivity].
  destruct (calendars (settings (snd (ensureValidAccessToken host w)))) as [| c rest].
  - split; reflexivity.
  - destruct date as [t |]; [| split; reflexivity].
    rewrite insertEvents_run. split; reflexivity.
Qed.

(** X6. The editor after [fetchAndInsertEvents]: either it is as before, or
    the date is valid, there is an active view, the events collected from
    the calendars are not none, and one text was inserted: the rendering,
    for the day, of a permutation of the collected events, which is their
    sorted list when every timed one has a start instant; the last notice
    then counts the collected events and the configured calendars.
    Without an active view the editor is as before. *)
Theorem fetchAndInsertEvents_editor (date : Js.Date) (w : World) :
  let w1 := snd (ensureValidAccessToken host w) in
  let w' := snd (fetchAndInsertEvents host date w) in
  (editor w' = editor w
   \/ exists t sorted pre,
        let dateStr := toISODate host t in
        let collected :=
          flat_map (contribution host)
            (exchanges host (dateStr ++ "T00:00:00Z") (dateStr ++ "T23:59:59Z")
               (accessToken (settings w1)) (List.length (requests w1)) 0
               (calendars (settings w1))) in
        date = Js.ValidDate t /\ activeView host = true /\ collected <> []
        /\ Permutation sorted collected
        /\ (Forall wellFormed collected -> sorted = sortEvents collected)
        /\ editor w' = (editor w ++ [renderEvents dateStr sorted])%list
        /\ notices w'
           = (pre ++ [Inserted (List.length collected)
                        (List.length (calendars (settings w')))])%list)
  /\ (activeView host = false -> editor w' = editor w).
Proof.
  cbv zeta. rewrite fetchAndInsertEvents_run. cbv zeta.
  pose proof (ensureValidAccessToken_editor host w) as He.
  destruct (fst (ensureValidAccessToken host w)); [| cbn; auto].
  set (w1 := snd (ensureValidAccessToken host w)) in *.
  destruct (calendars (settings w1)) as [| c rest] eqn:E; [cbn; auto |].
  destruct date as [t |]; [| cbn; auto].
  rewrite insertEvents_run. cbn [snd editor notices settings]. rewrite He, E.
  set (l := flat_map _ _).
  destruct l as [| x l'] eqn:El; [rewrite app_nil_r; auto |].
  destruct (activeView host); [| rewrite app_nil_r; auto].
  split; [| intros H; discriminate H]. right.
  exists t, (sortEvents (x :: l')). eexists. cbv zeta.
  split; [reflexivity |]. split; [reflexivity |].
  fold l. rewrite El.
  split; [discriminate |]. split; [apply array_sort_perm |].
  split; [reflexivity |]. split; reflexivity.
Qed.

(** X7. [fetchAndInsertEvents] shows at least one notice on every run but
    one: for an Invalid Date, when the token check passed without a notice
    and calendars are configured, the promise is rejected with the
    RangeError of [toISOString] and nothing is shown. *)
Theorem fetchAndInsertEvents_notifies (date : Js.Date) (w : World) :
  let w1 := snd (ensureValidAccessToken host w) in
  (exists pre final,
     fst (fetchAndInsertEvents host date w) = Fulfilled
     /\ notices (snd (fetchAndInsertEvents host date w))
        = (notices w ++ pre ++ [final])%list)
  \/ (date = Js.InvalidDate
      /\ fst (ensureValidAccessToken host w) = true
      /\ calendars (settings w1) <> []
      /\ fetchAndInsertEvents host date w = (Rejected Js.invalidTime, w1)
      /\ notices w1 = notices w).
Proof.
  cbv zeta. rewrite fetchAndInsertEvents_run. cbv zeta.
  destruct (ensureValidAccessToken host w) as [[|] w1] eqn:Hrun; cbn [fst snd].
  - destruct (ensureValidAccessToken_true host w w1 Hrun) as [_ [_ [Hn _]]].
    destruct (calendars (settings w1)) as [| c rest] eqn:E.
    + left. exists [], NoCalendars. cbn. rewrite Hn. auto.
    + destruct date as [t |].
      * left. rewrite insertEvents_run. cbn [fst snd notices]. rewrite Hn.
        eexists. eexists. rewrite <- app_assoc. split; reflexivity.
      * right. repeat split; [discriminate | exact Hn].
  - destruct (ensureValidAccessToken_false host w w1 Hrun) as [_ [_ [n Hn]]].
    left. exists [], n. cbn. auto.
Qed.

(** X8. When the token check passes, calendars are configured, the date is
    valid and no exchange contributes an event (every request failed or
    returned nothing), the command shows the notices of the failed
    calendars and then "No events on" the day, and inserts nothing. *)
Theorem fetchAndInsertEvents_no_events (t : Z) (w w1 : World) :
  ensureValidAccessToken host w = (true, w1) ->
  calendars (settings w1) <> [] ->
  let cals := calendars (settings w1) in
  let dateStr := toISODate host t in
  let timeMin := dateStr ++ "T00:00:00Z" in
  let timeMax := dateStr ++ "T23:59:59Z" in
  let bearer := accessToken (settings w1) in
  let xs := exchanges host timeMin timeMax bearer (List.length (requests w1)) 0 cals in
  flat_map (contribution host) xs = [] ->
  fetchAndInsertEvents host (Js.ValidDate t) w =
  (Fulfilled, mkWorld (settings w1)
                (requests w1 ++ map (eventsRequest timeMin timeMax bearer) cals)
                (saved w1)
                (notices w1 ++ flat_map diagnostic xs ++ [NoEvents dateStr])
                (editor w1)).
Proof.
  intros Hrun Hc cals dateStr timeMin timeMax bearer xs Hx.
  rewrite fetchAndInsertEvents_run. cbv zeta. rewrite Hrun. cbn [fst snd].
  fold cals dateStr. fold timeMin timeMax bearer. fold xs. rewrite Hx.
  destruct cals as [| c rest] eqn:E; [contradiction |].
  rewrite insertEvents_run. cbn [snd settings requests saved notices editor].
  rewrite app_nil_r, <- app_assoc. reflexivity.
Qed.

(** X29. The guards of the command, for every date.  When the token check
    fails the command ends in the world the check left.  When it passes
    and no calendar is configured, the command shows "No calendars
    configured" and does nothing else. *)
Theorem fetchAndInsertEvents_guards (date : Js.Date) (w w1 : World) :
  (ensureValidAccessToken host w = (false, w1) ->
   fetchAndInsertEvents host date w = (Fulfilled, w1))
  /\ (ensureValidAccessToken host w = (true, w1) ->
      calendars (settings w1) = [] ->
      fetchAndInsertEvents host date w =
      (Fulfilled, mkWorld (settings w1) (requests w1) (saved w1)
                    (notices w1 ++ [NoCalendars]) (editor w1))).
Proof.
  split.
  - intros Hrun. rewrite fetchAndInsertEvents_run. cbv zeta. rewrite Hrun. reflexivity.
  - intros Hrun Hc. rewrite fetchAndInsertEvents_run. cbv zeta. rewrite Hrun.
    cbn [fst snd]. rewrite Hc. reflexivity.
Qed.

End CommandRuns.

(** ** More on normalization and on the merge order *)

Section ArraySortMore.

Context {A : Type}.
Variable comparefn : A -> A -> Js.Number.

(** A list already in order is left as it is. *)
Lemma array_sort_fixed (l : list A) :
  StronglySorted (fun a b => SortCompare comparefn a b <= 0) l ->
  array_sort comparefn l = l.
Proof.
  induction 1 as [| x t St IH Hx]; [reflexivity |].
  cbn [array_sort]. rewrite IH. destruct t as [| y t']; [reflexivity |].
  cbn [sort_insert]. inversion Hx as [| ? ? Hy _]; subst.
  apply Z.leb_le in Hy. rewrite Hy. reflexivity.
Qed.

(** Inserting an element outside a class does not disturb the class. *)
Lemma sort_insert_filter_out (f : A -> bool) (x : A) (l : list A) :
  f x = false -> filter f (sort_insert comparefn x l) = filter f l.
Proof.
  intros Fx. induction l as [| y t IH]; cbn [sort_insert filter].
  - rewrite Fx. reflexivity.
  - destruct (SortCompare comparefn x y <=? 0)%Z; cbn [filter].
    + rewrite Fx. reflexivity.
    + rewrite IH. reflexivity.
Qed.

End ArraySortMore.

Lemma StronglySorted_app {X : Type} (R : X -> X -> Prop) (l1 l2 : list X) :
  StronglySorted R l1 -> StronglySorted R l2 ->
  (forall a b, In a l1 -> In b l2 -> R a b) ->
  StronglySorted R (l1 ++ l2).
Proof.
  induction 1 as [| a t St IH Ha]; intros S2 H12; cbn; [exact S2 |].
  constructor.
  - apply IH; [exact S2 |]. intros x y Hx Hy. apply H12; [right |]; assumption.
  - apply Forall_app. split; [exact Ha |].
    rewrite Forall_forall. intros y Hy. apply H12; [left; reflexivity | exact Hy].
Qed.

(** A list whose all-day events come first is its all-day events followed
    by its timed events. *)
Lemma allDayFirst_split (l : list Item) :
  StronglySorted allDayFirst l ->
  l = (filter isAllDay l ++ filter (fun e => negb (isAllDay e)) l)%list.
Proof.
  induction 1 as [| x t St IH Hx]; [reflexivity |]. cbn [filter].
  destruct (isAllDay x) eqn:Ex; cbn [negb app].
  - f_equal. exact IH.
  - assert (Ht : Forall (fun e => isAllDay e = false) t).
    { rewrite Forall_forall in *. intros y Hy. specialize (Hx y Hy).
      unfold allDayFirst in Hx. destruct (isAllDay y); [| reflexivity].
      rewrite Ex in Hx. symmetry. auto. }
    assert (E1 : filter isAllDay t = []).
    { clear -Ht. induction Ht as [| y t' Hy _ IH']; [reflexivity |].
      cbn. rewrite Hy. exact IH'. }
    rewrite E1 in *. cbn [app] in *. f_equal. exact IH.
Qed.

Lemma keyLe_compare_le (a b : Item) :
  wellFormed a -> wellFormed b ->
  keyLe (sortKey a) (sortKey b) -> SortCompare compareEvents a b <= 0.
Proof.
  items; intros Ha Hb H; try tauto; try lia; try (exfalso; auto; fail).
  split_eqb; cbn; lia.
Qed.

(** The events in the order of their calendars. *)
Lemma sortEvents_allDay_front (l : list Item) :
  StronglySorted (fun a b => (calendarIndex a <= calendarIndex b)%nat) l ->
  filter isAllDay (sortEvents l) = filter isAllDay l.
Proof.
  induction 1 as [| x t St IH Hx]; [reflexivity |].
  unfold sortEvents in *. cbn [array_sort filter].
  destruct (isAllDay x) eqn:Ex.
  - assert (E : sort_insert compareEvents x (array_sort compareEvents t)
                = x :: array_sort compareEvents t).
    { pose proof (array_sort_perm compareEvents t) as Hp.
      destruct (array_sort compareEvents t) as [| y s]; [reflexivity |].
      cbn [sort_insert].
      assert (Hy : In y t) by (eapply Permutation_in; [exact Hp | left; reflexivity]).
      rewrite Forall_forall in Hx. specialize (Hx y Hy).
      assert (Hc : SortCompare compareEvents x y <= 0).
      { unfold SortCompare, compareEvents. rewrite Ex.
        destruct (isAllDay y); cbn; lia. }
      apply Z.leb_le in Hc. rewrite Hc. reflexivity. }
    rewrite E. cbn [filter]. rewrite Ex, IH. reflexivity.
  - rewrite sort_insert_filter_out by exact Ex. exact IH.
Qed.

Section CollectedOrder.

Variable host : Host.

Lemma collected_index_ge (timeMin timeMax bearer : string) (cals : list Calendar) :
  forall sent k e,
    In e (flat_map (contribution host) (exchanges host timeMin timeMax bearer sent k cals)) ->
    (k <= calendarIndex e)%nat.
Proof.
  induction cals as [| c rest IH]; intros sent k e He; [contradiction |].
  cbn [exchanges flat_map] in He. apply in_app_or in He. destruct He as [He | He].
  - destruct (requestUrl host sent _) as [err | | data]; cbn in He; try contradiction.
    apply in_map_iff in He. destruct He as [ev [<- _]]. cbn. lia.
  - apply IH in He. lia.
Qed.

Lemma collected_byCalendar (timeMin timeMax bearer : string) (cals : list Calendar) :
  forall sent k,
    StronglySorted (fun a b => (calendarIndex a <= calendarIndex b)%nat)
      (flat_map (contribution host) (exchanges host timeMin timeMax bearer sent k cals)).
Proof.
  induction cals as [| c rest IH]; intros sent k; [constructor |].
  cbn [exchanges flat_map]. apply StronglySorted_app; [| apply IH |].
  - destruct (requestUrl host sent _) as [err | | data]; cbn; try constructor.
    induction (beforeNull (itemsOf data)) as [| ev evs IHe]; cbn; constructor;
      [exact IHe |].
    rewrite Forall_forall. intros b Hb. apply in_map_iff in Hb.
    destruct Hb as [ev' [<- _]]. cbn. lia.
  - intros a b Ha Hb. apply collected_index_ge in Hb.
    destruct (requestUrl host sent _) as [err | | data]; cbn in Ha; try contradiction.
    apply in_map_iff in Ha. destruct Ha as [ev [<- _]]. cbn. lia.
Qed.

(** X9. The start time of a normalized event: it is null exactly when the
    event has neither a (non-empty) [dateTime] nor a (non-empty) [date]; a
    timed event always has the date parsed from its [dateTime], so the
    null check of the comparator never fails on timed events; an all-day
    event with a [date] has the date parsed from it. *)
Theorem normalize_startTime (c : Calendar) (i : nat) (ev : RawEvent) :
  let item := normalize host c i ev in
  (startTime item = None <->
   Js.truthy (start_dateTime ev) = false /\ Js.truthy (start_date ev) = false)
  /\ (isAllDay item = false ->
      exists s, start_dateTime ev = Some s /\ startTime item = Some (parseDate host s))
  /\ (isAllDay item = true ->
      forall s, start_date ev = Some s -> s <> "" ->
                startTime item = Some (parseDate host s)).
Proof.
  cbv zeta. unfold normalize, Js.or. cbn [startTime isAllDay].
  destruct (start_dateTime ev) as [s |] eqn:Es; cbn [Js.truthy].
  - destruct (Js.nonEmpty s) eqn:En; cbn [negb].
    + rewrite En. split; [split; [discriminate | intros [H _]; discriminate] |].
      split; [intros _; exists s; auto | discriminate].
    + split; [| split; [discriminate |]].
      * destruct (start_date ev) as [d |]; cbn [Js.truthy]; [| tauto].
        destruct (Js.nonEmpty d); split; try tauto; try discriminate.
        intros [_ H]; discriminate.
      * intros _ d Hd Hne. rewrite Hd. apply nonEmpty_true in Hne.
        rewrite Hne. reflexivity.
  - cbn [negb]. split; [| split; [discriminate |]].
    + destruct (start_date ev) as [d |]; cbn [Js.truthy]; [| tauto].
      destruct (Js.nonEmpty d); split; try tauto; try discriminate.
      intros [_ H]; discriminate.
    + intros _ d Hd Hne. rewrite Hd. apply nonEmpty_true in Hne.
      rewrite Hne. reflexivity.
Qed.

(** X13. The all-day events of a run.  Whatever the calendars answer, the
    sorted list of the collected events is the all-day events, in the order
    in which the loop collected them (calendar after calendar, each in the
    order of its reply), followed by the timed events. *)
Theorem collected_allDay_in_fetch_order (timeMin timeMax bearer : string)
    (sent : nat) (cals : list Calendar) :
  let l := flat_map (contribution host)
             (exchanges host timeMin timeMax bearer sent 0 cals) in
  filter isAllDay (sortEvents l) = filter isAllDay l
  /\ sortEvents l
     = (filter isAllDay l ++ filter (fun e => negb (isAllDay e)) (sortEvents l))%list.
Proof.
  cbv zeta.
  assert (E : filter isAllDay
                (sortEvents (flat_map (contribution host)
                               (exchanges host timeMin timeMax bearer sent 0 cals)))
              = filter isAllDay (flat_map (contribution host)
                                   (exchanges host timeMin timeMax bearer sent 0 cals)))
    by apply sortEvents_allDay_front, collected_byCalendar.
  split; [exact E |].
  rewrite <- E. apply allDayFirst_split, sortEvents_allDayFirst.
Qed.

End CollectedOrder.

(** X10. On events whose timed members have a start instant the comparator
    is consistent, which is what makes the result of the sort the same in
    every engine: an event compares equal to itself, swapping the
    arguments negates the answer, and "not after" is transitive. *)
Theorem compareEvents_consistent (a b c : Item) :
  wellFormed a -> wellFormed b -> wellFormed c ->
  SortCompare compareEvents a a = 0
  /\ SortCompare compareEvents a b = - SortCompare compareEvents b a
  /\ (SortCompare compareEvents a b <= 0 -> SortCompare compareEvents b c <= 0 ->
      SortCompare compareEvents a c <= 0).
Proof.
  intros Ha Hb Hc. split; [| split].
  - clear b c Hb Hc. items; try lia; try (exfalso; auto; fail).
    rewrite Z.eqb_refl. cbn. lia.
  - clear c Hc. items; try lia; try (exfalso; auto; fail).
    rewrite (Z.eqb_sym t t0). split_eqb; cbn; lia.
  - intros H1 H2. apply keyLe_compare_le; try assumption.
    apply (keyLe_trans _ (sortKey b)); try (apply wellFormed_keyOk; assumption).
    + apply compare_le_keyLe; assumption.
    + apply compare_le_keyLe; assumption.
Qed.

(** X11. A timed event whose [dateTime] does not parse (Invalid Date) gets
    NaN from the comparator against every timed event that has a date, in
    both directions: the sort takes it as equal to all of them, whatever
    their instants and calendars. *)
Theorem compareEvents_invalid_date (a b : Item) (d : Js.Date) :
  isAllDay a = false -> startTime a = Some Js.InvalidDate ->
  isAllDay b = false -> startTime b = Some d ->
  compareEvents a b = Js.NaN /\ compareEvents b a = Js.NaN
  /\ SortCompare compareEvents a b = 0 /\ SortCompare compareEvents b a = 0.
Proof.
  intros Ha Sa Hb Sb. unfold SortCompare, compareEvents.
  rewrite Ha, Hb, Sa, Sb. destruct d; cbn; auto.
Qed.

(** X12. Sorting is idempotent on events whose timed members have a start
    instant: sorting the sorted list gives the sorted list. *)
Theorem sortEvents_idempotent (l : list Item) :
  Forall wellFormed l -> sortEvents (sortEvents l) = sortEvents l.
Proof.
  intros Hl. apply array_sort_fixed.
  apply (StronglySorted_weaken wellFormed (fun a b => keyLe (sortKey a) (sortKey b))).
  - apply keyLe_compare_le.
  - apply sortEvents_wellFormed, Hl.
  - apply sortEvents_sorted_keys, Hl.
Qed.

(** ** More on the rendering *)

Lemma append_assoc (a b c : string) : (a ++ b) ++ c = a ++ (b ++ c).
Proof. induction a as [| ch a IH]; cbn; [reflexivity | rewrite IH; reflexivity]. Qed.

Lemma append_nil_r (a : string) : a ++ "" = a.
Proof. induction a as [| ch a IH]; cbn; [reflexivity | rewrite IH; reflexivity]. Qed.

Lemma render_fold (l : list Item) :
  forall text,
    fold_left (fun text item => text ++ renderLine item) l text
    = text ++ fold_right (fun item rest => renderLine item ++ rest) "" l.
Proof.
  induction l as [| x t IH]; intros text; cbn.
  - rewrite append_nil_r. reflexivity.
  - rewrite IH, append_assoc. reflexivity.
Qed.

(** X14. The inserted text is the header naming the day, an empty line,
    and then the lines of the events in the order of the list, each event
    giving exactly its own line; rendering a list in two parts and joining
    the lines gives the same text. *)
Theorem renderEvents_lines (dateStr : string) (l1 l2 : list Item) :
  renderEvents dateStr (l1 ++ l2)
  = renderEvents dateStr l1 ++ fold_right (fun item rest => renderLine item ++ rest) "" l2
  /\ renderEvents dateStr l2
     = ("## Calendar Events for " ++ dateStr ++ nl ++ nl)
         ++ fold_right (fun item rest => renderLine item ++ rest) "" l2.
Proof.
  unfold renderEvents. split.
  - rewrite fold_left_app, render_fold. reflexivity.
  - apply render_fold.
Qed.

(** X15. The placeholders of a line.  The title of a rendered event is
    never empty: it is the summary when there is a non-empty one and
    "(No title)" otherwise.  The description part is empty exactly when
    the event has no (non-empty) description, and otherwise starts a new
    line. *)
Theorem renderLine_placeholders (item : Item) :
  line_title item <> ""
  /\ (forall s, summary (event item) = Some s -> s <> "" -> line_title item = s)
  /\ (Js.truthy (summary (event item)) = false -> line_title item = "(No title)")
  /\ (line_description item = "" <-> Js.truthy (description (event item)) = false)
  /\ (forall d, description (event item) = Some d -> d <> "" ->
                line_description item = nl ++ "  " ++ d).
Proof.
  unfold line_title, line_description, Js.orElse, Js.truthy.
  split; [| split; [| split; [| split]]].
  - destruct (summary (event item)) as [s |]; [| discriminate].
    destruct (Js.nonEmpty s) eqn:E; [apply nonEmpty_true, E | discriminate].
  - intros s -> Hs. apply nonEmpty_true in Hs. rewrite Hs. reflexivity.
  - destruct (summary (event item)) as [s |]; [| reflexivity].
    intros ->. reflexivity.
  - destruct (description (event item)) as [d |]; [| tauto].
    destruct (Js.nonEmpty d); split; try reflexivity; discriminate.
  - intros d -> Hd. apply nonEmpty_true in Hd. rewrite Hd. reflexivity.
Qed.

(** ** Loading the settings *)

Section Loading.

Variable host : Host.

(** X17. Data stored by the single-calendar version (no [calendars] key):
    whatever [calendarId] it holds, the credential is taken over and, once
    the token check passes, the command run for a valid date asks for one
    calendar only, "primary". *)
Theorem loadSettings_legacy (d : StoredData) (t : Z)
    (rq : list Request) (sv : list GoogleCalendarSettings) (nt : list Notice)
    (ed : list string) :
  stored_calendars d = None ->
  let w := mkWorld (loadSettings (Some d)) rq sv nt ed in
  let dateStr := toISODate host t in
  calendars (settings w) = [mkCalendar "primary" "Primary Calendar"]
  /\ refreshToken (settings w) = assigned "" (stored_refreshToken d)
  /\ accessToken (settings w) = assigned "" (stored_accessToken d)
  /\ (fst (ensureValidAccessToken host w) = true ->
      exists bearer,
        requests (snd (fetchAndInsertEvents host (Js.ValidDate t) w))
        = (requests (snd (ensureValidAccessToken host w))
           ++ [EventsRequest "primary" (dateStr ++ "T00:00:00Z")
                 (dateStr ++ "T23:59:59Z") bearer])%list).
Proof.
  intros Hc w dateStr. subst w.
  assert (Hcals : calendars (loadSettings (Some d)) = [mkCalendar "primary" "Primary Calendar"])
    by (cbn; rewrite Hc; reflexivity).
  cbn [settings]. split; [exact Hcals |]. split; [reflexivity |]. split; [reflexivity |].
  intros Hok. rewrite fetchAndInsertEvents_run. cbv zeta.
  destruct (ensureValidAccessToken host _) as [ok w1] eqn:Hrun. cbn in Hok. subst ok.
  cbn [fst snd].
  destruct (ensureValidAccessToken_true host _ w1 Hrun) as [_ [_ [_ Hcal]]].
  cbn [settings] in Hcal. rewrite Hcals in Hcal. rewrite Hcal.
  rewrite insertEvents_run. cbn. eexists. reflexivity.
Qed.

(** X18. First run: when nothing is stored, or the stored object has no
    refresh token, the command, whatever the date, only shows the "No
    refresh token" notice: no request is sent, nothing is saved or
    inserted. *)
Theorem loadSettings_unauthenticated (data : option StoredData) (date : Js.Date)
    (rq : list Request) (sv : list GoogleCalendarSettings) (nt : list Notice)
    (ed : list string) :
  (data = None \/ exists d, data = Some d /\ stored_refreshToken d = None) ->
  fetchAndInsertEvents host date (mkWorld (loadSettings data) rq sv nt ed)
  = (Fulfilled, mkWorld (loadSettings data) rq sv (nt ++ [NoRefreshToken]) ed).
Proof.
  intros H.
  assert (E : refreshToken (loadSettings data) = "").
  { destruct H as [-> | [d [-> Hd]]]; [reflexivity |]. cbn. rewrite Hd. reflexivity. }
  unfold fetchAndInsertEvents, ensureValidAccessToken, bind, getSettings.
  cbn [settings]. rewrite E. reflexivity.
Qed.

End Loading.

(** ** The calendar rows of the settings tab *)

Lemma setNth_length {A : Type} (i : nat) (x : A) (l : list A) :
  List.length (setNth i x l) = List.length l.
Proof.
  revert i. induction l as [| y t IH]; intros [| j]; cbn; auto.
Qed.

Lemma setNth_same {A : Type} (i : nat) (x : A) (l : list A) :
  (i < List.length l)%nat -> nth_error (setNth i x l) i = Some x.
Proof.
  revert i. induction l as [| y t IH]; intros [| j] H; cbn in *; try lia; auto.
  apply IH. lia.
Qed.

Lemma setNth_other {A : Type} (i j : nat) (x : A) (l : list A) :
  j <> i -> nth_error (setNth i x l) j = nth_error l j.
Proof.
  revert i j. induction l as [| y t IH]; intros [| i] [| j] H; cbn; auto.
  contradiction.
Qed.

(** Exchanging two neighbours, in either order of the two assignments. *)
Lemma swap_neighbours {A : Type} (k : nat) (a b : A) :
  forall l,
    nth_error l k = Some b -> nth_error l (S k) = Some a ->
    exists pre post,
      List.length pre = k
      /\ l = (pre ++ b :: a :: post)%list
      /\ setNth k a (setNth (S k) b l) = (pre ++ a :: b :: post)%list
      /\ setNth (S k) b (setNth k a l) = (pre ++ a :: b :: post)%list.
Proof.
  induction k as [| k IH]; intros l Hb Ha.
  - destruct l as [| x [| y post]]; try discriminate.
    injection Hb as ->. injection Ha as ->.
    exists [], post. repeat split.
  - destruct l as [| x t]; [discriminate |].
    destruct (IH t Hb Ha) as [pre [post [Hl [Ht [H1 H2]]]]].
    exists (x :: pre), post.
    split; [cbn; f_equal; exact Hl |]. split; [cbn; f_equal; exact Ht |].
    split; cbn; f_equal; assumption.
Qed.

Lemma app_same_length {A : Type} (p p' s s' : list A) :
  List.length p = List.length p' -> (p ++ s = p' ++ s')%list -> p = p' /\ s = s'.
Proof.
  revert p'. induction p as [| x p IH]; intros [| y p'] Hl E; cbn in *;
    try discriminate; auto.
  injection E as -> E. injection Hl as Hl. destruct (IH p' Hl E) as [-> ->]. auto.
Qed.

Section CalendarRows.

Import SettingTab.

Lemma commit_plugin (cals : list Calendar) (t : Tab) :
  let s := settings (plugin t) in
  let s' := mkSettings (clientId s) (clientSecret s) (refreshToken s)
              (accessToken s) (accessTokenExpiry s) cals in
  commit cals t =
  mkTab (mkWorld s' (requests (plugin t)) (saved (plugin t) ++ [s'])
           (notices (plugin t)) (editor (plugin t)))
    (exchangeRequests t) (tabNotices t) (S (displays t)).
Proof. reflexivity. Qed.

Lemma moveUp_run (k : nat) (t : Tab) (pre post : list Calendar) (a b : Calendar) :
  List.length pre = k ->
  calendars (settings (plugin t)) = (pre ++ b :: a :: post)%list ->
  moveUp (S k) t = Some (commit (pre ++ a :: b :: post) t)
  /\ moveDown k t = Some (commit (pre ++ a :: b :: post) t).
Proof.
  intros Hk Hc.
  assert (Hb : nth_error (calendars (settings (plugin t))) k = Some b).
  { rewrite Hc, nth_error_app2 by lia. rewrite Hk, Nat.sub_diag. reflexivity. }
  assert (Ha : nth_error (calendars (settings (plugin t))) (S k) = Some a).
  { rewrite Hc, nth_error_app2 by lia. rewrite Hk.
    replace (S k - k)%nat with 1%nat by lia. reflexivity. }
  destruct (swap_neighbours k a b _ Hb Ha) as [pre' [post' [Hl [Ht [H1 H2]]]]].
  rewrite Hc in Ht. apply app_same_length in Ht; [| lia].
  destruct Ht as [<- Ht]. injection Ht as <-.
  split.
  - unfold moveUp, swapEntries. cbn [Nat.ltb Nat.leb].
    replace (S k - 1)%nat with k by lia. rewrite Hb, Ha, H1. reflexivity.
  - unfold moveDown, swapEntries.
    assert (Hlt : (k <? List.length (calendars (settings (plugin t))) - 1)%nat = true).
    { apply Nat.ltb_lt. rewrite Hc, length_app. cbn. lia. }
    rewrite Hlt. replace (k + 1)%nat with (S k) by lia. rewrite Ha, Hb, H2. reflexivity.
Qed.

Lemma rows_split (i : nat) (cals : list Calendar) :
  (0 < i < List.length cals)%nat ->
  exists pre post a b,
    List.length pre = (i - 1)%nat /\ cals = (pre ++ b :: a :: post)%list.
Proof.
  intros Hi.
  destruct (nth_error cals (i - 1)) as [b |] eqn:Hb;
    [| apply nth_error_None in Hb; lia].
  destruct (nth_error cals (S (i - 1))) as [a |] eqn:Ha;
    [| apply nth_error_None in Ha; lia].
  destruct (swap_neighbours (i - 1) a b cals Hb Ha) as [pre [post [Hl [Ht _]]]].
  exists pre, post, a, b. auto.
Qed.

(** X19. The "up" button of row [i], for a row that is not the first: the
    calendar moves one place up, exchanging places with the one before it;
    every other row stays where it is, no calendar is lost or added, the
    new settings are saved and the tab is rendered again.  On the first
    row the button does nothing. *)
Theorem moveUp_swaps (i : nat) (t : Tab) :
  let cals := calendars (settings (plugin t)) in
  ((0 < i < List.length cals)%nat ->
   exists t',
     moveUp i t = Some t'
     /\ let cals' := calendars (settings (plugin t')) in
        nth_error cals' (i - 1) = nth_error cals i
        /\ nth_error cals' i = nth_error cals (i - 1)
        /\ (forall j, j <> i -> j <> (i - 1)%nat -> nth_error cals' j = nth_error cals j)
        /\ Permutation cals cals'
        /\ saved (plugin t') = (saved (plugin t) ++ [settings (plugin t')])%list
        /\ displays t' = S (displays t))
  /\ moveUp 0 t = Some t.
Proof.
  intros cals. split; [| reflexivity]. intros Hi.
  destruct (rows_split i cals Hi) as [pre [post [a [b [Hl Hc]]]]].
  destruct (moveUp_run (i - 1) t pre post a b Hl Hc) as [Hup _].
  replace (S (i - 1)) with i in Hup by lia.
  eexists. split; [exact Hup |]. rewrite commit_plugin. cbn.
  fold cals. rewrite Hc. repeat split.
  - rewrite !nth_error_app2 by lia. rewrite Hl, Nat.sub_diag.
    replace (i - (i - 1))%nat with 1%nat by lia. reflexivity.
  - rewrite !nth_error_app2 by lia. rewrite Hl, Nat.sub_diag.
    replace (i - (i - 1))%nat with 1%nat by lia. reflexivity.
  - intros j Hj1 Hj2. destruct (Nat.lt_ge_cases j (i - 1)) as [Hlt | Hge].
    + rewrite !nth_error_app1 by lia. reflexivity.
    + rewrite !nth_error_app2 by lia. rewrite Hl.
      destruct (j - (i - 1))%nat as [| [| m]] eqn:E; try lia. reflexivity.
  - apply Permutation_app_head, perm_swap.
Qed.

(** X20. The "down" button of a row is the "up" button of the row below
    it: both leave the same tab.  On the last row (and beyond) the "down"
    button does nothing. *)
Theorem moveDown_is_moveUp_below (i : nat) (t : Tab) :
  let n := List.length (calendars (settings (plugin t))) in
  ((S i < n)%nat -> moveDown i t = moveUp (S i) t /\ moveDown i t <> None)
  /\ ((n <= S i)%nat -> moveDown i t = Some t).
Proof.
  cbv zeta. split.
  - intros Hi.
    destruct (rows_split (S i) (calendars (settings (plugin t)))) as [pre [post [a [b [Hl Hc]]]]];
      [lia |].
    replace (S i - 1)%nat with i in Hl by lia.
    destruct (moveUp_run i t pre post a b Hl Hc) as [Hup Hdown].
    rewrite Hup, Hdown. split; [reflexivity | discriminate].
  - intros Hi. unfold moveDown.
    assert (E : (i <? List.length (calendars (settings (plugin t))) - 1)%nat = false)
      by (apply Nat.ltb_ge; lia).
    rewrite E. reflexivity.
Qed.

(** X21. Moving a row up and then moving down the row it landed on brings
    the list of calendars back to what it was. *)
Theorem moveUp_moveDown (i : nat) (t : Tab) :
  (0 < i < List.length (calendars (settings (plugin t))))%nat ->
  exists t' t'',
    moveUp i t = Some t'
    /\ moveDown (i - 1) t' = Some t''
    /\ calendars (settings (plugin t'')) = calendars (settings (plugin t)).
Proof.
  intros Hi.
  destruct (rows_split i _ Hi) as [pre [post [a [b [Hl Hc]]]]].
  destruct (moveUp_run (i - 1) t pre post a b Hl Hc) as [Hup _].
  replace (S (i - 1)) with i in Hup by lia.
  assert (Hc' : calendars (settings (plugin (commit (pre ++ a :: b :: post) t)))
                = (pre ++ a :: b :: post)%list) by reflexivity.
  destruct (moveUp_run (i - 1) _ pre post b a Hl Hc') as [_ Hdown].
  eexists. eexists. split; [exact Hup |]. split; [exact Hdown |].
  rewrite Hc. reflexivity.
Qed.

(** X22. The delete button of row [i]: the row is removed, the rows before
    it stay and the rows after it move one place up; for an index that is
    not a row the list is left as it is.  In both cases the settings are
    saved and the tab is rendered again. *)
Theorem deleteCalendar_removes (i : nat) (t : Tab) :
  let cals := calendars (settings (plugin t)) in
  let t' := deleteCalendar i t in
  let cals' := calendars (settings (plugin t')) in
  ((i < List.length cals)%nat -> S (List.length cals') = List.length cals)
  /\ (forall j, (j < i)%nat -> nth_error cals' j = nth_error cals j)
  /\ (forall j, (i <= j)%nat -> nth_error cals' j = nth_error cals (S j))
  /\ ((List.length cals <= i)%nat -> cals' = cals)
  /\ saved (plugin t') = (saved (plugin t) ++ [settings (plugin t')])%list
  /\ displays t' = S (displays t).
Proof.
  cbv zeta. unfold deleteCalendar. rewrite commit_plugin.
  cbv zeta. cbn [plugin settings calendars saved displays].
  set (cals := calendars (settings (plugin t))).
  split; [| split; [| split; [| split; [| split]]]]; try reflexivity.
  - intros Hi. rewrite length_app, length_firstn, length_skipn.
    rewrite Nat.min_l by lia. lia.
  - intros j Hj. destruct (Nat.le_gt_cases (List.length cals) i) as [Hout | Hin].
    + rewrite firstn_all2, skipn_all2 by lia. rewrite app_nil_r. reflexivity.
    + rewrite nth_error_app1 by (rewrite length_firstn, Nat.min_l by lia; lia).
      rewrite nth_error_firstn. apply Nat.ltb_lt in Hj. rewrite Hj. reflexivity.
  - intros j Hj. destruct (Nat.le_gt_cases (List.length cals) i) as [Hout | Hin].
    + rewrite firstn_all2, skipn_all2 by lia. rewrite app_nil_r.
      rewrite (proj2 (nth_error_None cals j)) by lia.
      rewrite (proj2 (nth_error_None cals (S j))) by lia. reflexivity.
    + rewrite nth_error_app2 by (rewrite length_firstn, Nat.min_l by lia; lia).
      rewrite length_firstn, Nat.min_l, nth_error_skipn by lia.
      f_equal. lia.
  - intros Hout. rewrite firstn_all2, skipn_all2 by lia. apply app_nil_r.
Qed.

(** X23. The "+ Add Calendar" button: the rows that exist stay as they
    are and one row is added after them, for the calendar "primary",
    labelled "Calendar" and the new number of rows; deleting that last row
    gives back the list as it was. *)
Theorem addCalendar_appends (t : Tab) :
  let cals := calendars (settings (plugin t)) in
  let t' := addCalendar t in
  let cals' := calendars (settings (plugin t')) in
  cals' = (cals ++ [mkCalendar "primary"
                      ("Calendar " ++ decimal (List.length cals + 1))])%list
  /\ (forall j, (j < List.length cals)%nat -> nth_error cals' j = nth_error cals j)
  /\ calendars (settings (plugin (deleteCalendar (List.length cals) t'))) = cals
  /\ saved (plugin t') = (saved (plugin t) ++ [settings (plugin t')])%list.
Proof.
  cbv zeta. unfold addCalendar, deleteCalendar. rewrite !commit_plugin.
  cbv zeta. cbn [plugin settings calendars saved displays].
  set (cals := calendars (settings (plugin t))).
  split; [reflexivity |]. split; [| split; [| reflexivity]].
  - intros j Hj. apply nth_error_app1. exact Hj.
  - rewrite firstn_app, Nat.sub_diag, firstn_all. cbn [firstn].
    rewrite skipn_all2 by (rewrite length_app; cbn; lia).
    rewrite !app_nil_r. reflexivity.
Qed.

(** X24. Editing the label of row [i]: the label of that row becomes the
    new text, its calendar id and all the other rows stay, and the
    settings are saved.  For an index that is not a row the handler throws
    before anything is changed. *)
Theorem onLabelChange_row (i : nat) (value : string) (t : Tab) :
  let cals := calendars (settings (plugin t)) in
  ((i < List.length cals)%nat ->
   exists t' c,
     onLabelChange i value t = Some t'
     /\ nth_error cals i = Some c
     /\ nth_error (calendars (settings (plugin t'))) i = Some (mkCalendar (id c) value)
     /\ (forall j, j <> i ->
           nth_error (calendars (settings (plugin t'))) j = nth_error cals j)
     /\ map id (calendars (settings (plugin t'))) = map id cals
     /\ saved (plugin t') = (saved (plugin t) ++ [settings (plugin t')])%list)
  /\ ((List.length cals <= i)%nat -> onLabelChange i value t = None).
Proof.
  cbv zeta. split.
  - intros Hi. unfold onLabelChange.
    destruct (nth_error (calendars (settings (plugin t))) i) as [c |] eqn:Hc;
      [| apply nth_error_None in Hc; lia].
    eexists. exists c. split; [reflexivity |]. cbn.
    split; [reflexivity |]. split; [apply setNth_same, Hi |].
    split; [intros j Hj; apply setNth_other, Hj |]. split; [| reflexivity].
    apply nth_error_ext. intros j. rewrite !nth_error_map.
    destruct (Nat.eq_dec j i) as [-> | Hj].
    + rewrite setNth_same, Hc by exact Hi. reflexivity.
    + rewrite setNth_other by exact Hj. reflexivity.
  - intros Hi. unfold onLabelChange.
    rewrite (proj2 (nth_error_None _ i)) by exact Hi. reflexivity.
Qed.

End CalendarRows.

(** ** The exchange of the authorization code *)

Section ExchangeRuns.

Import SettingTab.

Variable exchangeUrl : ExchangeRequest -> ExchangeReply.
Variable clock : Z.

(** The request that [exchangeCodeForToken] sends. *)
Lemma exchangeCodeForToken_run (code : string) (t : Tab) :
  let s := settings (plugin t) in
  let req := mkExchangeRequest code (clientId s) (clientSecret s)
               "urn:ietf:wg:oauth:2.0:oob" "authorization_code" in
  clientId s <> "" -> clientSecret s <> "" ->
  exchangeCodeForToken exchangeUrl clock code t =
  match exchangeUrl req with
  | ExchangeParsed data =>
      if Js.truthy (refresh_token data) then
        let s' := mkSettings (clientId s) (clientSecret s)
                    (Js.orElse (refresh_token data) "")
                    (Js.orElse (SettingTab.access_token data) "")
                    (clock + Js.orNum (SettingTab.expires_in data) 3600 * 1000)
                    (calendars s) in
        mkTab (mkWorld s' (requests (plugin t)) (saved (plugin t) ++ [s'])
                 (notices (plugin t)) (editor (plugin t)))
          (exchangeRequests t ++ [req]) (tabNotices t ++ [SetupComplete])
          (S (displays t))
      else
        mkTab (plugin t) (exchangeRequests t ++ [req])
          (tabNotices t ++ [ExchangeFailed]) (displays t)
  | ExchangeThrew err =>
      mkTab (plugin t) (exchangeRequests t ++ [req])
        (tabNotices t ++ [ExchangeError err]) (displays t)
  end.
Proof.
  intros s req Hid Hsecret. unfold exchangeCodeForToken. fold s.
  apply nonEmpty_true in Hid, Hsecret. rewrite Hid, Hsecret. cbn [negb orb].
  fold req. destruct (exchangeUrl req) as [err | data]; [reflexivity |].
  unfold Js.truthy.
  destruct (refresh_token data) as [fresh |]; [| reflexivity].
  destruct (Js.nonEmpty fresh) eqn:E; [| reflexivity].
  cbn. rewrite E. reflexivity.
Qed.

Lemma exchangeCodeForToken_granted (code : string) (t : Tab)
    (data : ExchangeData) (fresh : string) :
  let s := settings (plugin t) in
  let req := mkExchangeRequest code (clientId s) (clientSecret s)
               "urn:ietf:wg:oauth:2.0:oob" "authorization_code" in
  clientId s <> "" -> clientSecret s <> "" ->
  exchangeUrl req = ExchangeParsed data ->
  refresh_token data = Some fresh -> fresh <> "" ->
  exchangeCodeForToken exchangeUrl clock code t =
  let s' := mkSettings (clientId s) (clientSecret s) fresh
              (Js.orElse (SettingTab.access_token data) "")
              (clock + Js.orNum (SettingTab.expires_in data) 3600 * 1000)
              (calendars s) in
  mkTab (mkWorld s' (requests (plugin t)) (saved (plugin t) ++ [s'])
           (notices (plugin t)) (editor (plugin t)))
    (exchangeRequests t ++ [req]) (tabNotices t ++ [SetupComplete])
    (S (displays t)).
Proof.
  intros s req Hid Hsecret Hq Hf Hne.
  rewrite (exchangeCodeForToken_run code t Hid Hsecret). cbv zeta.
  fold s. fold req. rewrite Hq. unfold Js.truthy. rewrite Hf.
  apply nonEmpty_true in Hne. rewrite Hne. cbn. rewrite Hne. reflexivity.
Qed.


(** X26. A successful exchange: with client id and secret set and a
    response carrying the refresh token [fresh], the credential gets that
    refresh token, the access token of the response (none when the
    response has none) and the expiry clock + lifetime * 1000 with the
    lifetime defaulting to 3600; client id, client secret and calendars
    stay; the settings are saved once, the "setup complete" notice is
    shown and the tab is rendered again. *)
Theorem exchangeCodeForToken_success (code : string) (t : Tab)
    (data : ExchangeData) (fresh : string) :
  let s := settings (plugin t) in
  let req := mkExchangeRequest code (clientId s) (clientSecret s)
               "urn:ietf:wg:oauth:2.0:oob" "authorization_code" in
  clientId s <> "" -> clientSecret s <> "" ->
  exchangeUrl req = ExchangeParsed data ->
  refresh_token data = Some fresh -> fresh <> "" ->
  let t' := exchangeCodeForToken exchangeUrl clock code t in
  let s' := settings (plugin t') in
  refreshToken s' = fresh
  /\ accessToken s' = Js.orElse (SettingTab.access_token data) ""
  /\ accessTokenExpiry s' = clock + Js.orNum (SettingTab.expires_in data) 3600 * 1000
  /\ clientId s' = clientId s /\ clientSecret s' = clientSecret s
  /\ calendars s' = calendars s
  /\ saved (plugin t') = (saved (plugin t) ++ [s'])%list
  /\ exchangeRequests t' = (exchangeRequests t ++ [req])%list
  /\ tabNotices t' = (tabNotices t ++ [SetupComplete])%list
  /\ displays t' = S (displays t).
Proof.
  intros s req Hid Hsecret Hq Hf Hne t' s'. subst s' t'.
  rewrite (exchangeCodeForToken_granted code t data fresh Hid Hsecret Hq Hf Hne).
  cbn. repeat split.
Qed.

(** X27. After a successful exchange.  When the response carried an access
    token, [ensureValidAccessToken] succeeds without any request at every
    instant earlier than the expiry by more than a minute.  When it
    carried none, the first [ensureValidAccessToken] sends the refresh
    request built with the new refresh token. *)
Theorem exchangeCodeForToken_then_ensure (code : string) (t : Tab)
    (data : ExchangeData) (fresh : string) (host : Host) :
  let s := settings (plugin t) in
  let req := mkExchangeRequest code (clientId s) (clientSecret s)
               "urn:ietf:wg:oauth:2.0:oob" "authorization_code" in
  clientId s <> "" -> clientSecret s <> "" ->
  exchangeUrl req = ExchangeParsed data ->
  refresh_token data = Some fresh -> fresh <> "" ->
  let w' := plugin (exchangeCodeForToken exchangeUrl clock code t) in
  (Js.truthy (SettingTab.access_token data) = true ->
   now host + 60000 < clock + Js.orNum (SettingTab.expires_in data) 3600 * 1000 ->
   ensureValidAccessToken host w' = (true, w'))
  /\ (Js.truthy (SettingTab.access_token data) = false ->
      requests (snd (ensureValidAccessToken host w'))
      = (requests w' ++ [TokenRequest (clientId s) (clientSecret s) fresh])%list).
Proof.
  intros s req Hid Hsecret Hq Hf Hne w'. subst w'.
  rewrite (exchangeCodeForToken_granted code t data fresh Hid Hsecret Hq Hf Hne).
  cbv zeta. cbn [plugin]. set (w' := mkWorld _ _ _ _ _).
  assert (Hr : refreshToken (settings w') <> "") by exact Hne.
  split.
  - intros Ha Ht.
    destruct (ensureValidAccessToken_cases host w')
      as [[E _] | [[_ [_ [_ H]]] | [_ [[Hs | Hs] _]]]];
      [contradiction | exact H | |].
    + exfalso. subst w'. cbn in Hs. unfold Js.truthy in Ha.
      destruct (SettingTab.access_token data) as [tok |]; [| discriminate].
      cbn in Hs. rewrite Ha in Hs. apply nonEmpty_true in Ha. contradiction.
    + exfalso. subst w'. cbn in Hs. lia.
  - intros Ha.
    assert (Hs : stale host (settings w')).
    { left. subst w'. cbn. unfold Js.truthy in Ha.
      destruct (SettingTab.access_token data) as [tok |]; [| reflexivity].
      cbn. rewrite Ha. reflexivity. }
    rewrite (ensureValidAccessToken_refresh host w' Hr Hs). cbv zeta.
    assert (Hreq : refreshRequest (settings w')
                   = TokenRequest (clientId s) (clientSecret s) fresh).
    { reflexivity. }
    rewrite Hreq.
    destruct (requestUrl host _ _) as [err | | d]; [reflexivity | reflexivity |].
    match goal with |- context [if ?b then _ else _] => destruct b end; reflexivity.
Qed.

End ExchangeRuns.

(** ** What is saved *)

Section WriteThrough.

Import SettingTab.

Lemma synced_commit (cals : list Calendar) (t : Tab) : synced (plugin (commit cals t)).
Proof. rewrite commit_plugin. cbn. eexists. reflexivity. Qed.

Lemma synced_ensure (host : Host) (w : World) :
  synced w -> synced (snd (ensureValidAccessToken host w)).
Proof.
  intros Hw.
  destruct (ensureValidAccessToken_cases host w)
    as [[E ->] | [[Hr [Ha [Ht ->]]] | [Hr [Hs [sent [-> H]]]]]]; try exact Hw.
  destruct H as [[err [_ ->]] | [[data [_ [_ ->]]] | [data [tok [_ [_ [Hne ->]]]]]]];
    try exact Hw.
  cbn. eexists. reflexivity.
Qed.

(** X28. What is in memory is what was saved.  If the settings in memory
    are the ones saved last, they still are after [ensureValidAccessToken],
    after [fetchAndInsertEvents], after an exchange of the authorization
    code and after every handler of the calendar rows; the handlers that
    change the list of calendars always end that way. *)
Theorem synced_kept :
  (forall host w, synced w -> synced (snd (ensureValidAccessToken host w)))
  /\ (forall host date w,
        synced w -> synced (snd (fetchAndInsertEvents host date w)))
  /\ (forall exchangeUrl clock code t,
        synced (plugin t) ->
        synced (plugin (exchangeCodeForToken exchangeUrl clock code t)))
  /\ (forall i t t', moveUp i t = Some t' -> synced (plugin t) -> synced (plugin t'))
  /\ (forall i t t', moveDown i t = Some t' -> synced (plugin t) -> synced (plugin t'))
  /\ (forall i t, synced (plugin (deleteCalendar i t)))
  /\ (forall t, synced (plugin (addCalendar t)))
  /\ (forall i v t t', onLabelChange i v t = Some t' -> synced (plugin t'))
  /\ (forall i v t t', onIdChange i v t = Some t' -> synced (plugin t')).
Proof.
  split; [exact synced_ensure |]. split; [| split; [| split; [| split]]].
  - intros host date w Hw. apply (synced_ensure host) in Hw.
    rewrite fetchAndInsertEvents_run. cbv zeta.
    destruct (fst (ensureValidAccessToken host w)); [| exact Hw].
    destruct (calendars (settings (snd (ensureValidAccessToken host w)))); [exact Hw |].
    destruct date as [t |]; [| exact Hw].
    rewrite insertEvents_run. exact Hw.
  - intros exchangeUrl clock code t Ht. unfold exchangeCodeForToken.
    destruct (negb _ || negb _); [exact Ht |].
    destruct (exchangeUrl _) as [err | data]; [exact Ht |].
    destruct (refresh_token data) as [fresh |]; [| exact Ht].
    destruct (Js.nonEmpty fresh); [| exact Ht].
    cbn. eexists. reflexivity.
  - intros i t t' H Ht. unfold moveUp in H.
    destruct (0 <? i)%nat; [| injection H as <-; exact Ht].
    destruct (swapEntries _ _ _); [| discriminate].
    injection H as <-. apply synced_commit.
  - intros i t t' H Ht. unfold moveDown in H.
    destruct (i <? _)%nat; [| injection H as <-; exact Ht].
    destruct (swapEntries _ _ _); [| discriminate].
    injection H as <-. apply synced_commit.
  - split; [intros; apply synced_commit |]. split; [intros; apply synced_commit |].
    split; intros i v t t' H.
    + unfold onLabelChange in H. destruct (nth_error _ i); [| discriminate].
      injection H as <-. cbn. eexists. reflexivity.
    + unfold onIdChange in H. destruct (nth_error _ i); [| discriminate].
      injection H as <-. cbn. eexists. reflexivity.
Qed.

End WriteThrough.

(** ** The worked setup, checked *)

Section MoreWitnesses.

Import Examples Scenario Setup.

Lemma ensureValidAccessToken_transport_failure_witness :
  ensureValidAccessToken h expired =
  (false, mkWorld (settings expired) [refreshRequest (settings expired)] []
            [RefreshError "Error: net::ERR_INTERNET_DISCONNECTED"] []).
Proof.
  apply (ensureValidAccessToken_transport_failure h expired
           "Error: net::ERR_INTERNET_DISCONNECTED").
  - discriminate.
  - right. cbn. unfold midnight. lia.
  - reflexivity.
Defined.

Lemma ensureValidAccessToken_again_witness :
  ensureValidAccessToken (host (granted (Some 3599)))
    (snd (ensureValidAccessToken (host (granted (Some 3599))) expired))
  = (true, snd (ensureValidAccessToken (host (granted (Some 3599))) expired)).
Proof.
  apply (proj1 (ensureValidAccessToken_again (host (granted (Some 3599))) expired
                  (snd (ensureValidAccessToken (host (granted (Some 3599))) expired))
                  eq_refl)).
  reflexivity.
Defined.

Lemma fetchAndInsertEvents_no_events_witness :
  fetchAndInsertEvents quiet today fresh =
  (Fulfilled, mkWorld (settings fresh) dayRequests []
                [CalendarError "Personal" "Error: net::ERR_FAILED"; NoEvents day] []).
Proof.
  unfold today.
  rewrite (fetchAndInsertEvents_no_events quiet (midnight + 32400000) fresh fresh);
    [reflexivity | reflexivity | discriminate | reflexivity].
Defined.

Lemma compareEvents_consistent_witness :
  SortCompare compareEvents standupItem lunchItem
  = - SortCompare compareEvents lunchItem standupItem.
Proof.
  apply (compareEvents_consistent standupItem lunchItem birthdayItem);
    unfold wellFormed; cbn; congruence.
Defined.

Lemma compareEvents_invalid_date_witness :
  startTime garbledItem = Some Js.InvalidDate
  /\ SortCompare compareEvents garbledItem standupItem = 0
  /\ SortCompare compareEvents lunchItem garbledItem = 0
  /\ SortCompare compareEvents lunchItem standupItem > 0.
Proof.
  split; [reflexivity |]. split; [| split; [| reflexivity]].
  - apply (compareEvents_invalid_date garbledItem standupItem
             (Js.ValidDate (midnight + 32400000))); reflexivity.
  - apply (compareEvents_invalid_date garbledItem lunchItem
             (Js.ValidDate (midnight + 37800000))); reflexivity.
Defined.

Lemma sortEvents_idempotent_witness :
  sortEvents (sortEvents [lunchItem; birthdayItem; reviewItem; standupItem])
  = [birthdayItem; reviewItem; standupItem; lunchItem].
Proof.
  rewrite (sortEvents_idempotent [lunchItem; birthdayItem; reviewItem; standupItem]).
  - reflexivity.
  - repeat constructor; unfold wellFormed; cbn; congruence.
Defined.

Lemma loadSettings_legacy_witness :
  calendars (loadSettings (Some legacyData)) = [mkCalendar "primary" "Primary Calendar"]
  /\ refreshToken (loadSettings (Some legacyData)) = "1//refresh".
Proof.
  destruct (loadSettings_legacy h legacyData midnight [] [] [] [] eq_refl) as [Hc [Hr _]].
  split; [exact Hc | exact Hr].
Defined.

Lemma loadSettings_unauthenticated_witness :
  fetchAndInsertEvents h today (mkWorld (loadSettings None) [] [] [] [])
  = (Fulfilled, mkWorld DEFAULT_SETTINGS [] [] [NoRefreshToken] []).
Proof.
  apply (loadSettings_unauthenticated h None today [] [] [] []). left. reflexivity.
Defined.

Lemma moveUp_swaps_witness :
  exists t',
    SettingTab.moveUp 2 tab = Some t'
    /\ calendars (settings (SettingTab.plugin t')) = [work; holidays; personal].
Proof.
  destruct (proj1 (moveUp_swaps 2 tab)) as [t' [Hup _]]; [cbn; lia |].
  exists t'. split; [exact Hup |].
  cbn in Hup. injection Hup as <-. reflexivity.
Defined.

Lemma moveUp_moveDown_witness :
  exists t' t'',
    SettingTab.moveUp 1 tab = Some t'
    /\ SettingTab.moveDown 0 t' = Some t''
    /\ calendars (settings (SettingTab.plugin t'')) = [work; personal; holidays].
Proof.
  apply (moveUp_moveDown 1 tab). cbn. lia.
Defined.

Lemma exchangeCodeForToken_success_witness :
  refreshToken (settings (SettingTab.plugin
                            (SettingTab.exchangeCodeForToken grant midnight "4/code" tab)))
  = "1//new"
  /\ accessTokenExpiry (settings (SettingTab.plugin
                                    (SettingTab.exchangeCodeForToken grant midnight "4/code" tab)))
     = midnight + 3599000.
Proof.
  destruct (exchangeCodeForToken_success grant midnight "4/code" tab
              (SettingTab.mkExchangeData (Some "1//new") (Some "ya29.first") (Some 3599))
              "1//new")
    as [Hr [_ [He _]]]; try reflexivity; try discriminate.
  split; [exact Hr | exact He].
Defined.

Lemma exchangeCodeForToken_then_ensure_witness :
  ensureValidAccessToken h
    (SettingTab.plugin (SettingTab.exchangeCodeForToken grant midnight "4/code" tab))
  = (true, SettingTab.plugin (SettingTab.exchangeCodeForToken grant midnight "4/code" tab)).
Proof.
  apply (proj1 (exchangeCodeForToken_then_ensure grant midnight "4/code" tab
                  (SettingTab.mkExchangeData (Some "1//new") (Some "ya29.first") (Some 3599))
                  "1//new" h ltac:(discriminate) ltac:(discriminate) eq_refl eq_refl
                  ltac:(discriminate)));
    reflexivity.
Defined.

End MoreWitnesses.
